(** * Trace-Creator: a shallow embedding of [trace-creator.py]

    The script configures remote hosts over SSH, starts a [tshark] capture,
    runs a local command, waits, stops the capture and moves the content of
    the capture directory to the output directory.

    What is modelled, and how:
    - Python values carry their types: a [str] is a list of Unicode code
      points, a [bytes] object a list of bytes.  The streams read from a child
      process ([communicate]) or from an SSH channel ([read]) are [bytes];
      the files the script opens with [open('w')] are text streams, whose
      [write] accepts [str] only.
    - [str.lower] and the text encoding are parameters; [re.sub],
      [shlex.split] and [shutil.move] follow the Python library.
    - The script's functions are written in a state and exception monad over
      the content of the output directory, the content of the capture
      directory and the trace of the interactions with the outside (SSH
      sessions, processes, sleeping).  What the outside answers is given by a
      [world].
    - Directories hold files and directories (no links or devices); file and
      host names are single path components; console messages are left
      out. *)

From Stdlib Require Import List NArith ZArith Bool String Ascii Lia.
Import ListNotations.

(** ** Strings and bytes *)

Definition char := N.
Definition pystr := list char.
Definition bytes := list Byte.byte.

(** A literal of the source, as a list of code points. *)
Definition py (s : string) : pystr := map N_of_ascii (list_ascii_of_string s).

Definition dquote : char := 34%N.
Definition squote : char := 39%N.
Definition backslash : char := 92%N.
Definition underscore : char := 95%N.

Fixpoint str_eqb (a b : pystr) : bool :=
  match a, b with
  | [], [] => true
  | x :: a', y :: b' => N.eqb x y && str_eqb a' b'
  | _, _ => false
  end.

Definition mem (c : char) (s : pystr) : bool := existsb (N.eqb c) s.

(** Python's truth value of a [bytes] object: non-empty. *)
Definition truthy (b : bytes) : bool :=
  match b with [] => false | _ :: _ => true end.

(** ASCII lower-casing; [str.lower] agrees with it on ASCII strings. *)
Definition ascii_lower (s : pystr) : pystr :=
  map (fun c => if (65 <=? c)%N && (c <=? 90)%N then (c + 32)%N else c) s.

(** ** Task configuration (one entry of the YAML task list) *)

Record HostConfigEntry := {
  h_ip : pystr;
  h_command : pystr
}.

Record Task := {
  t_name : pystr;
  t_command : pystr;
  t_filter : option pystr;
  t_configuration : option (list HostConfigEntry)
}.

(** ** [get_task_id] *)

(** The character class of the regular expression in [get_task_id]: space,
    [@#$%^&*<>{}:|;], the single quote, the backslash, the double quote and
    the slash. *)
Definition unsafe_chars : pystr :=
  py " @#$%^&*<>{}:|;" ++ [squote; backslash; dquote] ++ py "/".

Definition is_unsafe (c : char) : bool := mem c unsafe_chars.

(** [re.sub(r'[...]', r'_', s)]: every character of the class becomes ['_']. *)
Definition re_sub_unsafe (s : pystr) : pystr :=
  map (fun c => if is_unsafe c then underscore else c) s.

(** The output format of [time.strftime("%Y-%m-%d_%H-%M-%S")]: decimal digits
    separated by ['-'] and ['_']. *)
Definition is_timestamp_char (c : char) : bool :=
  ((48 <=? c)%N && (c <=? 57)%N) || N.eqb c 45 || N.eqb c 95.

Definition is_timestamp (ts : pystr) : bool := forallb is_timestamp_char ts.

Section Namer.

(** [str.lower]: Unicode case mapping, whose tables are not part of the
    program. *)
Variable str_lower : pystr -> pystr.

Definition get_task_id (task : Task) (timestamp : pystr) : pystr :=
  let task_id := timestamp ++ py "-" ++ str_lower (firstn 50 (t_name task)) in
  re_sub_unsafe task_id.

End Namer.

(** ** Exceptions and results *)

Inductive exn :=
| NameError      (* a global name that is not bound *)
| IndexError     (* [subprocess.Popen] of an empty argument list *)
| TypeError      (* [write] of a [bytes] object to a text stream *)
| ValueError     (* [shlex.split] on unbalanced quoting, negative [sleep] *)
| OverflowError  (* [sleep] of a length that does not fit the clock *)
| OSError        (* filesystem and process-launch failures *)
| SSHException   (* connection or authentication failure *)
| ShutilError.   (* [shutil.Error] *)

Inductive result (A : Type) :=
| Ok (a : A)
| Raise (e : exn).
Arguments Ok {A} a.
Arguments Raise {A} e.

(** The argument of a [write] call. *)
Inductive pyval :=
| PyStr (s : pystr)
| PyBytes (b : bytes).

(** ** Directories

    A directory is its listing, in the order the operating system reports it;
    names are path components relative to the directory. *)

#[local] Set Warnings "-register-all".

Inductive node :=
| File (data : bytes)
| Dir (entries : list (pystr * node)).

Definition dir := list (pystr * node).

Fixpoint lookup (n : pystr) (d : dir) : option node :=
  match d with
  | [] => None
  | (k, v) :: d' => if str_eqb k n then Some v else lookup n d'
  end.

(** Create or replace the entry [n]. *)
Fixpoint put (n : pystr) (v : node) (d : dir) : dir :=
  match d with
  | [] => [(n, v)]
  | (k, w) :: d' => if str_eqb k n then (k, v) :: d' else (k, w) :: put n v d'
  end.

Fixpoint remove (n : pystr) (d : dir) : dir :=
  match d with
  | [] => []
  | (k, w) :: d' => if str_eqb k n then remove n d' else (k, w) :: remove n d'
  end.

Definition names (d : dir) : list pystr := map fst d.

(** [open(path, 'w')] for a path given by its components below [d]: the file
    is created, or truncated when it exists.  [None] is an [OSError]: a
    component that is missing or not a directory, or a directory in the place
    of the file. *)
Fixpoint fs_open_w (path : list pystr) (d : dir) : option dir :=
  match path with
  | [] => None
  | [f] =>
      match lookup f d with
      | Some (Dir _) => None
      | _ => Some (put f (File []) d)
      end
  | x :: path' =>
      match lookup x d with
      | Some (Dir sub) =>
          match fs_open_w path' sub with
          | Some sub' => Some (put x (Dir sub') d)
          | None => None
          end
      | _ => None
      end
  end.

(** Append [data] to the open file at [path]. *)
Fixpoint fs_append (path : list pystr) (data : bytes) (d : dir) : option dir :=
  match path with
  | [] => None
  | [f] =>
      match lookup f d with
      | Some (File old) => Some (put f (File (old ++ data)) d)
      | _ => None
      end
  | x :: path' =>
      match lookup x d with
      | Some (Dir sub) =>
          match fs_append path' data sub with
          | Some sub' => Some (put x (Dir sub') d)
          | None => None
          end
      | _ => None
      end
  end.

(** The content of the file at [path], when there is one. *)
Fixpoint fs_read (path : list pystr) (d : dir) : option bytes :=
  match path with
  | [] => None
  | [f] => match lookup f d with Some (File data) => Some data | _ => None end
  | x :: path' =>
      match lookup x d with
      | Some (Dir sub) => fs_read path' sub
      | _ => None
      end
  end.

(** ** The environment *)

Inductive ssh_outcome :=
| SshFails
| SshStreams (stdout stderr : bytes).   (* [stdout_handle.read()], [stderr_handle.read()] *)

Inductive proc_outcome :=
| LaunchFails (e : exn)                             (* [subprocess.Popen] raises *)
| Exits (returncode : Z) (stdout stderr : bytes).   (* [process.communicate()] *)

(** What the world answers while one task is processed. *)
Record world := {
  strftime : pystr;                                  (* [time.strftime(...)] at task start *)
  ssh : pystr -> pystr -> ssh_outcome;               (* host, command *)
  capture_tool : list pystr -> option (dir -> dir);  (* argv; [None]: the launch fails; else what
                                                        the tool writes into the capture directory *)
  local_process : list pystr -> proc_outcome;        (* argv *)
  clock_sleep : Z -> option exn                      (* seconds; [None]: the system sleeps,
                                                        else the error it answers *)
}.

Inductive event :=
| ESshConnect (host username password : pystr)
| ESshExec (command : pystr)
| ESshClose
| ECaptureStart (argv : list pystr)
| ECommandStart (argv : list pystr)
| ECommandExit (returncode : Z)
| ESleep (seconds : Z)
| ECaptureTerminate (argv : list pystr)
| EMove (name : pystr).

(** The script's arguments. *)
Record Args := {
  interface : pystr;
  delay : Z;
  username : pystr;
  password : pystr
}.

(** The state the script acts on: the content of [args.output_directory], the
    content of the capture directory [/tmp/capture], and the trace of its
    interactions.  The two directories are distinct and neither lies inside
    the other. *)
Record state := {
  output_content : dir;
  capture_content : dir;
  trace : list event
}.

Definition set_output (d : dir) (s : state) : state :=
  {| output_content := d; capture_content := capture_content s; trace := trace s |}.

Definition set_capture (d : dir) (s : state) : state :=
  {| output_content := output_content s; capture_content := d; trace := trace s |}.

(** ** A state and exception monad

    An exception keeps the effects that happened before it. *)

Definition M (A : Type) := state -> result A * state.

Definition ret {A} (a : A) : M A := fun s => (Ok a, s).

Definition raise {A} (e : exn) : M A := fun s => (Raise e, s).

Definition bind {A B} (m : M A) (k : A -> M B) : M B :=
  fun s =>
    match m s with
    | (Ok a, s') => k a s'
    | (Raise e, s') => (Raise e, s')
    end.

Notation "x <- m ;; k" := (bind m (fun x => k))
  (at level 61, m at next level, right associativity).
Notation "m ;; k" := (bind m (fun _ => k))
  (at level 61, right associativity).

Definition emit (e : event) : M unit :=
  fun s => (Ok tt, {| output_content := output_content s;
                      capture_content := capture_content s;
                      trace := trace s ++ [e] |}).

Definition when (b : bool) (m : M unit) : M unit := if b then m else ret tt.

Fixpoint for_each {A} (l : list A) (body : A -> M unit) : M unit :=
  match l with
  | [] => ret tt
  | x :: l' => body x ;; for_each l' body
  end.

(** *** Filesystem operations on the output directory *)

Definition exists_ (n : pystr) : M bool :=
  fun s => (Ok (match lookup n (output_content s) with Some _ => true | None => false end), s).

(** [Path.mkdir()]: fails when the name exists. *)
Definition mkdir (n : pystr) : M unit :=
  fun s =>
    match lookup n (output_content s) with
    | Some _ => (Raise OSError, s)
    | None => (Ok tt, set_output (output_content s ++ [(n, Dir [])]) s)
    end.

Definition open_w (path : list pystr) : M unit :=
  fun s =>
    match fs_open_w path (output_content s) with
    | Some d => (Ok tt, set_output d s)
    | None => (Raise OSError, s)
    end.

(** A text stream accepts [str] only; [encode] is the locale's encoding. *)
Definition text_write (encode : pystr -> bytes) (path : list pystr) (v : pyval) : M unit :=
  match v with
  | PyBytes _ => raise TypeError
  | PyStr t =>
      fun s =>
        match fs_append path (encode t) (output_content s) with
        | Some d => (Ok tt, set_output d s)
        | None => (Raise OSError, s)
        end
  end.

(** ** [shlex.split(s)]: POSIX mode, [whitespace_split], no comment characters

    The lexer of the Python library, one character at a time.  [l_state] is
    [self.state]; [l_token], [l_quoted] and the [escapedstate] carried by
    [LEscape] are the variables of [read_token]; [l_tokens] collects the
    tokens returned so far. *)

Inductive lex_state :=
| LSpace                                  (* [' '] *)
| LWord                                   (* ['a'] *)
| LQuote (q : char)                       (* a quote character *)
| LEscape (escapedstate : option char).   (* the escape character; [None] is ['a'] *)

Record lexer := {
  l_state : lex_state;
  l_token : pystr;
  l_quoted : bool;
  l_tokens : list pystr
}.

Definition whitespace : pystr := [32; 9; 13; 10]%N.
Definition quotes : pystr := [squote; dquote].
Definition escape : pystr := [backslash].
Definition escapedquotes : pystr := [dquote].

Definition lex_init : lexer :=
  {| l_state := LSpace; l_token := []; l_quoted := false; l_tokens := [] |}.

(** [if self.token or (self.posix and quoted): break] and the start of the
    next [read_token]. *)
Definition lex_break (l : lexer) : lexer :=
  match l_token l, l_quoted l with
  | [], false => {| l_state := LSpace; l_token := []; l_quoted := false; l_tokens := l_tokens l |}
  | t, _ => {| l_state := LSpace; l_token := []; l_quoted := false; l_tokens := l_tokens l ++ [t] |}
  end.

Definition lex_char (l : lexer) (c : char) : lexer :=
  match l_state l with
  | LSpace =>
      if mem c whitespace then lex_break l
      else if mem c escape then
        {| l_state := LEscape None; l_token := l_token l; l_quoted := l_quoted l; l_tokens := l_tokens l |}
      else if mem c quotes then
        {| l_state := LQuote c; l_token := l_token l; l_quoted := l_quoted l; l_tokens := l_tokens l |}
      else
        {| l_state := LWord; l_token := [c]; l_quoted := l_quoted l; l_tokens := l_tokens l |}
  | LQuote q =>
      if N.eqb c q then
        {| l_state := LWord; l_token := l_token l; l_quoted := true; l_tokens := l_tokens l |}
      else if mem c escape && mem q escapedquotes then
        {| l_state := LEscape (Some q); l_token := l_token l; l_quoted := true; l_tokens := l_tokens l |}
      else
        {| l_state := LQuote q; l_token := l_token l ++ [c]; l_quoted := true; l_tokens := l_tokens l |}
  | LEscape escapedstate =>
      let kept :=
        match escapedstate with
        | Some q => if negb (N.eqb c backslash) && negb (N.eqb c q) then [backslash] else []
        | None => []
        end in
      {| l_state := match escapedstate with Some q => LQuote q | None => LWord end;
         l_token := l_token l ++ kept ++ [c];
         l_quoted := l_quoted l;
         l_tokens := l_tokens l |}
  | LWord =>
      if mem c whitespace then lex_break l
      else if mem c quotes then
        {| l_state := LQuote c; l_token := l_token l; l_quoted := l_quoted l; l_tokens := l_tokens l |}
      else if mem c escape then
        {| l_state := LEscape None; l_token := l_token l; l_quoted := l_quoted l; l_tokens := l_tokens l |}
      else
        {| l_state := LWord; l_token := l_token l ++ [c]; l_quoted := l_quoted l; l_tokens := l_tokens l |}
  end.

(** End of input: [None] is the [ValueError] raised inside a quotation or
    after an escape character. *)
Definition lex_eof (l : lexer) : option (list pystr) :=
  match l_state l with
  | LSpace | LWord => Some (l_tokens (lex_break l))
  | LQuote _ | LEscape _ => None
  end.

Definition lex_run (l : lexer) (s : pystr) : lexer := fold_left lex_char s l.

Definition shlex_split (s : pystr) : option (list pystr) := lex_eof (lex_run lex_init s).

(** ** [shutil.move] and [move_files] *)

(** [shutil.move(source, destination)] for the entry [item] of the capture
    directory and [destination = destination_directory / item.name]; the
    result is the destination directory afterwards.
    - The destination is a directory: the entry is moved inside it, and it is
      an error if the name is taken there.
    - The destination is a file: [os.rename] (or, across file systems,
      [copy2]) replaces it by a file; a directory cannot replace it.
    - The destination does not exist: the entry is renamed (or copied). *)
Definition shutil_move (item : pystr * node) (destination_directory : dir) : result dir :=
  let (n, x) := item in
  match lookup n destination_directory with
  | Some (Dir sub) =>
      match lookup n sub with
      | Some _ => Raise ShutilError
      | None => Ok (put n (Dir (sub ++ [(n, x)])) destination_directory)
      end
  | Some (File _) =>
      match x with
      | File _ => Ok (put n x destination_directory)
      | Dir _ => Raise OSError
      end
  | None => Ok (destination_directory ++ [(n, x)])
  end.

(** The loop over [source_directory.iterdir()], a listing taken when the loop
    starts. *)
Fixpoint move_files_loop (items : dir) : M unit :=
  match items with
  | [] => ret tt
  | (n, x) :: items' =>
      if str_eqb n (py ".") || str_eqb n (py "..") then move_files_loop items'
      else
        (fun s =>
           match shutil_move (n, x) (output_content s) with
           | Ok d => (Ok tt, {| output_content := d;
                                capture_content := remove n (capture_content s);
                                trace := trace s ++ [EMove n] |})
           | Raise e => (Raise e, s)
           end) ;;
        move_files_loop items'
  end.

(** [move_files(capture_directory, args.output_directory)], the call of the
    script: from the capture directory to the output directory. *)
Definition move_files : M unit :=
  fun s => move_files_loop (capture_content s) s.

(** ** The script *)

Section Script.

Variable str_lower : pystr -> pystr.
Variable encode : pystr -> bytes.
Variable w : world.

(** Reading the module-level name [task]. *)
Definition load_global (global_task : option Task) : M Task :=
  match global_task with
  | Some task => ret task
  | None => raise NameError
  end.

Definition host_configure (global_task : option Task)
    (host command timestamp username password : pystr) : M unit :=
  match ssh w host command with
  | SshFails => raise SSHException
  | SshStreams stdout stderr =>
      emit (ESshConnect host username password) ;;
      emit (ESshExec command) ;;
      when (truthy stdout || truthy stderr)
        (task <- load_global global_task ;;
         let directory_name := get_task_id str_lower task timestamp in
         present <- exists_ directory_name ;;
         when (negb present) (mkdir directory_name) ;;
         when (truthy stdout)
           (let out_file := [directory_name; host ++ py ".log"] in
            open_w out_file ;;
            text_write encode out_file (PyBytes stdout)) ;;
         when (truthy stderr)
           (let err_file := [directory_name; host ++ py ".err"] in
            open_w err_file ;;
            text_write encode err_file (PyBytes stdout))) ;;
      emit ESshClose
  end.

(** [str(capture_directory / Path('{filename}.pcang'.format(...)))];
    [capture_directory] is the directory's path as a string. *)
Definition capture_file_path (task : Task) (capture_directory timestamp : pystr) : pystr :=
  capture_directory ++ py "/" ++ get_task_id str_lower task timestamp ++ py ".pcang".

Definition tshark_base (task : Task) (network_interface capture_directory timestamp : pystr) : pystr :=
  py "tshark -i " ++ network_interface ++ py " -q -w "
    ++ capture_file_path task capture_directory timestamp ++ py " -F pcapng".

Definition tshark_command (task : Task) (network_interface capture_directory timestamp : pystr) : pystr :=
  let tshark_command := tshark_base task network_interface capture_directory timestamp in
  match t_filter task with
  | Some f => tshark_command ++ py " -f " ++ [dquote] ++ f ++ [dquote]
  | None => tshark_command
  end.

(** The arguments [subprocess.Popen] is given for the capture. *)
Definition tshark_argv (task : Task) (network_interface capture_directory timestamp : pystr)
  : option (list pystr) :=
  shlex_split (tshark_command task network_interface capture_directory timestamp).

(** The process handle is represented by the arguments it was started with. *)
Definition start_tshark (task : Task) (network_interface capture_directory timestamp : pystr)
  : M (list pystr) :=
  match tshark_argv task network_interface capture_directory timestamp with
  | None => raise ValueError
  | Some argv =>
      match capture_tool w argv with
      | None => raise OSError
      | Some effect =>
          fun s => (Ok argv, {| output_content := output_content s;
                                capture_content := effect (capture_content s);
                                trace := trace s ++ [ECaptureStart argv] |})
      end
  end.

Definition run_command (task : Task) (timestamp : pystr) : M unit :=
  match shlex_split (t_command task) with
  | None => raise ValueError
  | Some argv =>
      match local_process w argv with
      | LaunchFails e => raise e
      | Exits returncode stdout stderr =>
          emit (ECommandStart argv) ;;
          emit (ECommandExit returncode) ;;
          when (truthy stdout)
            (let log_filename := [get_task_id str_lower task timestamp ++ py ".log"] in
             open_w log_filename ;;
             text_write encode log_filename (PyBytes stdout)) ;;
          when (truthy stderr)
            (let err_filename := [get_task_id str_lower task timestamp ++ py ".err"] in
             open_w err_filename ;;
             text_write encode err_filename (PyBytes stderr))
      end
  end.

(** The longest sleep, in seconds, that the interpreter can convert to its
    clock of 64-bit nanoseconds. *)
Definition sleep_max : Z := 9223372036.

(** [time.sleep(seconds)] for an integer: the length is converted to the
    clock first ([OverflowError] out of its range, on either side), a
    negative length is refused ([ValueError]), and then the system sleeps or
    refuses the length itself. *)
Definition sleep (seconds : Z) : M unit :=
  if (seconds <? - sleep_max)%Z || (sleep_max <? seconds)%Z then raise OverflowError
  else if (seconds <? 0)%Z then raise ValueError
  else match clock_sleep w seconds with
       | None => emit (ESleep seconds)
       | Some e => raise e
       end.

Definition terminate (tshark_process : list pystr) : M unit :=
  emit (ECaptureTerminate tshark_process).

Definition process_creator_task (global_task : option Task) (task : Task)
    (capture_directory : pystr) (args : Args) : M unit :=
  let task_timestamp := strftime w in
  match t_configuration task with
  | Some hosts =>
      for_each hosts (fun host_configuration =>
        host_configure global_task (h_ip host_configuration) (h_command host_configuration)
          task_timestamp (username args) (password args))
  | None => ret tt
  end ;;
  tshark_process <- start_tshark task (interface args) capture_directory task_timestamp ;;
  run_command task task_timestamp ;;
  sleep (delay args) ;;
  terminate tshark_process ;;
  move_files.

End Script.

(** The capture directory of the script. *)
Definition tmp_capture : pystr := py "/tmp/capture".

(** The loop of the main program, [for task in configuration]: the loop
    variable is the module-level name [task].  [ws k] is the world during the
    [k]-th task. *)
Fixpoint task_loop (str_lower : pystr -> pystr) (encode : pystr -> bytes)
    (ws : nat -> world) (k : nat) (configuration : list Task) (args : Args) : M unit :=
  match configuration with
  | [] => ret tt
  | task :: configuration' =>
      process_creator_task str_lower encode (ws k) (Some task) task tmp_capture args ;;
      task_loop str_lower encode ws (S k) configuration' args
  end.

(** ** [create_capture_directory]

    [parent] is what the path that holds [directory] names: nothing, a file,
    or a directory with its listing; [n] is the name of [directory] in it.
    The same two lines prepare the output directory in the main program.
    Access rights are not modelled. *)




(** * Properties *)

(** ** Strings and directory listings *)

Lemma str_eqb_eq (a b : pystr) : str_eqb a b = true <-> a = b.
Proof.
  revert b; induction a as [|x a IH]; intros [|y b]; simpl; split;
    try congruence; try reflexivity.
  - intros H. apply andb_true_iff in H as [Hx Hab].
    apply N.eqb_eq in Hx. apply IH in Hab. congruence.
  - intros H. injection H as -> ->. rewrite N.eqb_refl. simpl.
    apply IH. reflexivity.
Qed.

Lemma str_eqb_refl (a : pystr) : str_eqb a a = true.
Proof. apply str_eqb_eq. reflexivity. Qed.

Lemma str_eqb_neq (a b : pystr) : a <> b -> str_eqb a b = false.
Proof.
  intros H. destruct (str_eqb a b) eqn:E; [|reflexivity].
  apply str_eqb_eq in E. contradiction.
Qed.

Lemma lookup_put_same (n : pystr) (v : node) (d : dir) :
  lookup n (put n v d) = Some v.
Proof.
  induction d as [|[k u] d IH]; simpl.
  - rewrite str_eqb_refl. reflexivity.
  - destruct (str_eqb k n) eqn:E; simpl; rewrite E; auto.
Qed.

Lemma lookup_put_other (n m : pystr) (v : node) (d : dir) :
  n <> m -> lookup n (put m v d) = lookup n d.
Proof.
  intros Hnm. induction d as [|[k u] d IH]; simpl.
  - rewrite str_eqb_neq by congruence. reflexivity.
  - destruct (str_eqb k m) eqn:E; simpl.
    + apply str_eqb_eq in E. subst k.
      rewrite str_eqb_neq by congruence. reflexivity.
    + destruct (str_eqb k n); auto.
Qed.

Lemma lookup_app (n : pystr) (d e : dir) :
  lookup n (d ++ e) = match lookup n d with Some v => Some v | None => lookup n e end.
Proof.
  induction d as [|[k u] d IH]; simpl; [reflexivity|].
  destruct (str_eqb k n); auto.
Qed.

Lemma lookup_None_names (n : pystr) (d : dir) :
  lookup n d = None <-> ~ In n (names d).
Proof.
  induction d as [|[k u] d IH]; simpl.
  - tauto.
  - destruct (str_eqb k n) eqn:E.
    + apply str_eqb_eq in E. split; [discriminate | tauto].
    + assert (k <> n) by (intros ->; rewrite str_eqb_refl in E; discriminate).
      tauto.
Qed.

Lemma remove_not_in (n : pystr) (d : dir) :
  ~ In n (names d) -> remove n d = d.
Proof.
  induction d as [|[k u] d IH]; simpl; [reflexivity|].
  intros H. rewrite str_eqb_neq by tauto. f_equal. apply IH. tauto.
Qed.

(** ** The identity of a task run *)

Lemma mem_In (c : char) (s : pystr) : mem c s = true <-> In c s.
Proof.
  unfold mem. rewrite existsb_exists. split.
  - intros [x [Hin Heq]]. apply N.eqb_eq in Heq. subst x. exact Hin.
  - intros Hin. exists c. split; [assumption | apply N.eqb_refl].
Qed.

Lemma timestamp_char_safe (c : char) :
  is_timestamp_char c = true -> is_unsafe c = false.
Proof.
  intros Hts. destruct (is_unsafe c) eqn:E; [|reflexivity].
  apply mem_In in E. simpl in E.
  repeat (destruct E as [<- | E]; [vm_compute in Hts; discriminate|]).
  contradiction.
Qed.

Lemma re_sub_unsafe_timestamp (ts : pystr) :
  is_timestamp ts = true -> re_sub_unsafe ts = ts.
Proof.
  unfold is_timestamp, re_sub_unsafe.
  induction ts as [|c ts IH]; simpl; [reflexivity|].
  intros H. apply andb_true_iff in H as [Hc Hts].
  rewrite (timestamp_char_safe c Hc), IH by assumption. reflexivity.
Qed.

Lemma re_sub_unsafe_safe (s : pystr) (c : char) :
  In c (re_sub_unsafe s) -> is_unsafe c = false.
Proof.
  unfold re_sub_unsafe. rewrite in_map_iff. intros [x [Hx _]].
  destruct (is_unsafe x) eqn:E; subst c; [reflexivity | assumption].
Qed.

(** C2. The identity of a task run is the timestamp, a dash, and the name
    truncated to 50 characters, then lower-cased, then with the unsafe
    characters replaced by underscores.  The substitution runs over the whole
    string; a timestamp of the form [strftime] produces holds no unsafe
    character and is left as it is.  No unsafe character occurs in the
    identity, and the identity depends on the name and the timestamp only. *)
Theorem get_task_id_spec (str_lower : pystr -> pystr) (task : Task) (timestamp : pystr) :
  get_task_id str_lower task timestamp
  = re_sub_unsafe timestamp ++ py "-" ++ re_sub_unsafe (str_lower (firstn 50 (t_name task)))
  /\ (is_timestamp timestamp = true ->
      get_task_id str_lower task timestamp
      = timestamp ++ py "-" ++ re_sub_unsafe (str_lower (firstn 50 (t_name task))))
  /\ (forall c, In c (get_task_id str_lower task timestamp) -> is_unsafe c = false)
  /\ (forall task' timestamp',
        t_name task' = t_name task -> timestamp' = timestamp ->
        get_task_id str_lower task' timestamp' = get_task_id str_lower task timestamp).
Proof.
  assert (Hgen : get_task_id str_lower task timestamp
                 = re_sub_unsafe timestamp ++ py "-"
                   ++ re_sub_unsafe (str_lower (firstn 50 (t_name task)))).
  { unfold get_task_id, re_sub_unsafe. rewrite !map_app. reflexivity. }
  split; [exact Hgen|]. unfold get_task_id. repeat split.
  - intros Hts. fold (get_task_id str_lower task timestamp). rewrite Hgen.
    rewrite re_sub_unsafe_timestamp by assumption. reflexivity.
  - intros c. apply re_sub_unsafe_safe.
  - intros task' timestamp' -> ->. reflexivity.
Qed.

Definition ping_test : Task :=
  {| t_name := py "Ping Test"; t_command := py "ping -c1 localhost";
     t_filter := None; t_configuration := None |}.

Lemma get_task_id_spec_witness :
  get_task_id ascii_lower ping_test (py "2020-01-02_03-04-05")
  = py "2020-01-02_03-04-05-ping_test".
Proof.
  rewrite (proj1 (proj2 (get_task_id_spec ascii_lower ping_test (py "2020-01-02_03-04-05")))
             eq_refl).
  reflexivity.
Defined.

(** ** The remote host configurator *)

Lemma fs_open_w_keeps (path : list pystr) (n : pystr) (d d' : dir) :
  fs_open_w path d = Some d' -> lookup n d <> None -> lookup n d' <> None.
Proof.
  destruct path as [|x path]; simpl; [discriminate|].
  destruct path as [|y path].
  - destruct (lookup x d) as [[?|?]|] eqn:E; try discriminate;
      intros H; injection H as <-; intros Hn;
      (destruct (list_eq_dec N.eq_dec n x) as [->|Hne];
       [rewrite lookup_put_same; discriminate
       | rewrite lookup_put_other by assumption; assumption]).
  - destruct (lookup x d) as [[?|sub]|] eqn:E; try discriminate.
    destruct (fs_open_w (y :: path) sub); try discriminate.
    intros H; injection H as <-; intros Hn.
    destruct (list_eq_dec N.eq_dec n x) as [->|Hne];
      [rewrite lookup_put_same; discriminate
      | rewrite lookup_put_other by assumption; assumption].
Qed.

Lemma fs_open_w_file (f : pystr) (d : dir) :
  fs_open_w [f] d
  = match lookup f d with
    | Some (Dir _) => None
    | _ => Some (put f (File []) d)
    end.
Proof. reflexivity. Qed.

Lemma fs_open_w_sub (x y : pystr) (path : list pystr) (d : dir) :
  fs_open_w (x :: y :: path) d
  = match lookup x d with
    | Some (Dir sub) =>
        match fs_open_w (y :: path) sub with
        | Some sub' => Some (put x (Dir sub') d)
        | None => None
        end
    | _ => None
    end.
Proof. reflexivity. Qed.

Lemma fs_read_file (f : pystr) (d : dir) :
  fs_read [f] d = match lookup f d with Some (File data) => Some data | _ => None end.
Proof. reflexivity. Qed.

Lemma fs_read_sub (x y : pystr) (path : list pystr) (d : dir) :
  fs_read (x :: y :: path) d
  = match lookup x d with Some (Dir sub) => fs_read (y :: path) sub | _ => None end.
Proof. reflexivity. Qed.

Arguments fs_open_w : simpl never.
Arguments fs_read : simpl never.

Ltac run_monad :=
  unfold bind, ret, raise, emit, when, load_global, exists_, mkdir, open_w,
    text_write, set_output; simpl.

Definition bytes_of (s : string) : bytes := list_byte_of_string s.

(** A world in which remote commands print [stdout] and [stderr], the capture
    tool starts and writes nothing, and local commands print [out] and [err]. *)
Definition sample_world (stdout stderr out err : bytes) : world :=
  {| strftime := py "2020-01-02_03-04-05";
     ssh := fun _ _ => SshStreams stdout stderr;
     capture_tool := fun _ => Some (fun d => d);
     local_process := fun _ => Exits 0 out err;
     clock_sleep := fun _ => None |}.

Definition empty_state : state :=
  {| output_content := []; capture_content := []; trace := [] |}.

Definition no_encoding (s : pystr) : bytes := [].

(** C4. When the remote command prints nothing on either stream, the
    configurator leaves both directories as they are and closes the session
    after the streams have been read. *)
Theorem host_configure_empty_output
    (str_lower : pystr -> pystr) (encode : pystr -> bytes) (w : world)
    (global_task : option Task) (host command timestamp username password : pystr)
    (s : state) :
  ssh w host command = SshStreams [] [] ->
  host_configure str_lower encode w global_task host command timestamp username password s
  = (Ok tt, {| output_content := output_content s;
               capture_content := capture_content s;
               trace := trace s ++ [ESshConnect host username password;
                                    ESshExec command; ESshClose] |}).
Proof.
  intros Hssh. unfold host_configure. rewrite Hssh. run_monad.
  rewrite <- !app_assoc. reflexivity.
Qed.

Lemma host_configure_empty_output_witness :
  host_configure ascii_lower no_encoding (sample_world [] [] [] []) None
    (py "10.0.0.1") (py "true") (py "2020-01-02_03-04-05") (py "vagrant") (py "vagrant")
    empty_state
  = (Ok tt, {| output_content := []; capture_content := [];
               trace := [ESshConnect (py "10.0.0.1") (py "vagrant") (py "vagrant");
                         ESshExec (py "true"); ESshClose] |}).
Proof.
  apply (host_configure_empty_output ascii_lower no_encoding (sample_world [] [] [] []) None
           (py "10.0.0.1") (py "true") (py "2020-01-02_03-04-05") (py "vagrant") (py "vagrant")
           empty_state).
  reflexivity.
Defined.

(** The counterexample of C9: with no module-level [task] and a remote
    command that prints nothing, the configurator returns normally. *)
Lemma host_configure_unbound_quiet_returns :
  fst (host_configure ascii_lower no_encoding (sample_world [] [] [] []) None
         (py "10.0.0.1") (py "true") (py "2020-01-02_03-04-05") (py "vagrant") (py "vagrant")
         empty_state)
  <> Raise NameError.
Proof. vm_compute. discriminate. Qed.

(** C9, amended. The configurator names the per-host directory after the
    module-level [task], which is not one of its parameters.  When the remote
    command printed something and no [task] is bound, the call raises
    [NameError] before it creates anything, and the session stays open; when
    the command printed nothing, [task] is not read and the call returns; when
    [task] is bound and the command printed something, the directory named
    after that task exists afterwards. *)
Theorem host_configure_global_task
    (str_lower : pystr -> pystr) (encode : pystr -> bytes) (w : world)
    (host command timestamp username password : pystr) (stdout stderr : bytes)
    (s : state) :
  ssh w host command = SshStreams stdout stderr ->
  (truthy stdout || truthy stderr = true ->
   host_configure str_lower encode w None host command timestamp username password s
   = (Raise NameError, {| output_content := output_content s;
                          capture_content := capture_content s;
                          trace := trace s ++ [ESshConnect host username password;
                                               ESshExec command] |}))
  /\ (truthy stdout || truthy stderr = false ->
      fst (host_configure str_lower encode w None host command timestamp username password s)
      = Ok tt)
  /\ (forall task,
        truthy stdout || truthy stderr = true ->
        lookup (get_task_id str_lower task timestamp)
          (output_content
             (snd (host_configure str_lower encode w (Some task) host command timestamp
                     username password s)))
        <> None).
Proof.
  intros Hssh. unfold host_configure. rewrite Hssh. repeat split.
  - intros Hout. run_monad. rewrite Hout. simpl.
    rewrite <- !app_assoc. reflexivity.
  - intros Hout. run_monad. rewrite Hout. reflexivity.
  - intros task Hout. run_monad. rewrite Hout. simpl.
    set (dn := get_task_id str_lower task timestamp).
    destruct (lookup dn (output_content s)) as [x|] eqn:Hdn; simpl.
    + assert (Hsome : lookup dn (output_content s) <> None) by congruence.
      destruct (truthy stdout); simpl.
      * destruct (fs_open_w _ (output_content s)) eqn:Ho; simpl; [|assumption].
        eapply fs_open_w_keeps; eassumption.
      * destruct (truthy stderr); simpl; [|assumption].
        destruct (fs_open_w _ (output_content s)) eqn:Ho; simpl; [|assumption].
        eapply fs_open_w_keeps; eassumption.
    + rewrite Hdn. simpl.
      assert (Hsome : lookup dn (output_content s ++ [(dn, Dir [])]) <> None).
      { rewrite lookup_app, Hdn. simpl. rewrite str_eqb_refl. discriminate. }
      destruct (truthy stdout); simpl.
      * destruct (fs_open_w _ (output_content s ++ _)) eqn:Ho; simpl; [|assumption].
        eapply fs_open_w_keeps; eassumption.
      * destruct (truthy stderr); simpl; [|assumption].
        destruct (fs_open_w _ (output_content s ++ _)) eqn:Ho; simpl; [|assumption].
        eapply fs_open_w_keeps; eassumption.
Qed.

Lemma host_configure_global_task_witness :
  host_configure ascii_lower no_encoding (sample_world (bytes_of "up") [] [] []) None
    (py "10.0.0.1") (py "uptime") (py "2020-01-02_03-04-05") (py "vagrant") (py "vagrant")
    empty_state
  = (Raise NameError,
     {| output_content := []; capture_content := [];
        trace := [ESshConnect (py "10.0.0.1") (py "vagrant") (py "vagrant");
                  ESshExec (py "uptime")] |}).
Proof.
  apply (proj1 (host_configure_global_task ascii_lower no_encoding
                  (sample_world (bytes_of "up") [] [] [])
                  (py "10.0.0.1") (py "uptime") (py "2020-01-02_03-04-05")
                  (py "vagrant") (py "vagrant") (bytes_of "up") [] empty_state eq_refl)).
  reflexivity.
Defined.

Lemma put_fresh (n : pystr) (v : node) (d : dir) :
  lookup n d = None -> put n v d = d ++ [(n, v)].
Proof.
  induction d as [|[k u] d IH]; simpl; [reflexivity|].
  destruct (str_eqb k n); [discriminate|].
  intros H. rewrite IH by assumption. reflexivity.
Qed.

Lemma fs_open_w_read (path : list pystr) (d d' : dir) :
  fs_open_w path d = Some d' -> fs_read path d' = Some [].
Proof.
  revert d d'. induction path as [|x path IH]; intros d d'.
  - discriminate.
  - destruct path as [|y path].
    + rewrite fs_open_w_file, fs_read_file.
      destruct (lookup x d) as [[?|?]|]; simpl; try discriminate;
        intros H; injection H as <-; rewrite lookup_put_same; reflexivity.
    + rewrite fs_open_w_sub, fs_read_sub.
      destruct (lookup x d) as [[?|sub]|]; simpl; try discriminate.
      destruct (fs_open_w (y :: path) sub) as [sub'|] eqn:E; simpl; try discriminate.
      intros H; injection H as <-. rewrite lookup_put_same.
      apply (IH sub sub'). exact E.
Qed.

Lemma log_err_differ (host : pystr) : host ++ py ".log" <> host ++ py ".err".
Proof. intros H. apply app_inv_head in H. discriminate. Qed.

(** The output directory once the directory [dn] has been created in it if
    it was missing. *)
Definition with_directory (dn : pystr) (d : dir) : dir :=
  match lookup dn d with
  | Some _ => d
  | None => d ++ [(dn, Dir [])]
  end.

(** The file a runner or configurator opens first: the log when there is
    output, the error file otherwise. *)
Definition first_suffix (stdout : bytes) : pystr :=
  if truthy stdout then py ".log" else py ".err".

Lemma host_configure_noisy
    (str_lower : pystr -> pystr) (encode : pystr -> bytes) (w : world) (task : Task)
    (host command timestamp username password : pystr) (stdout stderr : bytes)
    (s : state) :
  ssh w host command = SshStreams stdout stderr ->
  truthy stdout || truthy stderr = true ->
  let dn := get_task_id str_lower task timestamp in
  let file := [dn; host ++ first_suffix stdout] in
  host_configure str_lower encode w (Some task) host command timestamp username password s
  = match fs_open_w file (with_directory dn (output_content s)) with
    | Some d' =>
        (Raise TypeError,
         {| output_content := d'; capture_content := capture_content s;
            trace := trace s ++ [ESshConnect host username password; ESshExec command] |})
    | None =>
        (Raise OSError,
         {| output_content := with_directory dn (output_content s);
            capture_content := capture_content s;
            trace := trace s ++ [ESshConnect host username password; ESshExec command] |})
    end.
Proof.
  intros Hssh Hout dn file. unfold host_configure. rewrite Hssh. run_monad.
  rewrite Hout. simpl. fold dn. subst file. unfold with_directory, first_suffix.
  rewrite <- !app_assoc. simpl.
  destruct (lookup dn (output_content s)) as [x|] eqn:Hdn; simpl;
    [|rewrite Hdn; simpl];
    (destruct (truthy stdout) eqn:Hso; simpl;
     [|simpl in Hout; rewrite Hout; simpl]);
    match goal with
    | |- context [fs_open_w ?p ?d] => destruct (fs_open_w p d); reflexivity
    end.
Qed.

(** C1. With a non-empty error stream and no directory of the task's
    identity yet, the configurator raises [TypeError], and the [.err] file
    does not hold the error stream: it is missing when there was standard
    output too (the write to the log raised first), and empty otherwise (the
    argument of the write is [stdout]). *)
Theorem host_configure_err_file
    (str_lower : pystr -> pystr) (encode : pystr -> bytes) (w : world) (task : Task)
    (host command timestamp username password : pystr) (stdout stderr : bytes)
    (s : state) :
  ssh w host command = SshStreams stdout stderr ->
  stderr <> [] ->
  lookup (get_task_id str_lower task timestamp) (output_content s) = None ->
  let r := host_configure str_lower encode w (Some task) host command timestamp
             username password s in
  let err_file := [get_task_id str_lower task timestamp; host ++ py ".err"] in
  fst r = Raise TypeError
  /\ fs_read err_file (output_content (snd r)) = (if truthy stdout then None else Some [])
  /\ fs_read err_file (output_content (snd r)) <> Some stderr.
Proof.
  intros Hssh Herr Hfresh r err_file.
  assert (Hout : truthy stdout || truthy stderr = true).
  { destruct stderr; [contradiction|]. apply orb_true_r. }
  assert (Hr : fst r = Raise TypeError
               /\ fs_read err_file (output_content (snd r))
                  = (if truthy stdout then None else Some [])).
  { subst r err_file.
    rewrite (host_configure_noisy str_lower encode w task host command timestamp
               username password stdout stderr s Hssh Hout).
    set (dn := get_task_id str_lower task timestamp) in *.
    unfold with_directory. rewrite Hfresh.
    rewrite fs_open_w_sub, lookup_app, Hfresh. simpl. rewrite str_eqb_refl.
    rewrite fs_open_w_file. simpl. split; [reflexivity|].
    rewrite fs_read_sub, lookup_put_same, fs_read_file. simpl.
    unfold first_suffix. destruct (truthy stdout).
    - rewrite str_eqb_neq by apply log_err_differ. reflexivity.
    - rewrite str_eqb_refl. reflexivity. }
  destruct Hr as [Hr1 Hr2]. repeat split; try assumption.
  rewrite Hr2. destruct (truthy stdout); [discriminate|].
  intros H. injection H as H. symmetry in H. contradiction.
Qed.

Lemma host_configure_err_file_witness :
  let r := host_configure ascii_lower no_encoding (sample_world [] (bytes_of "boom") [] [])
             (Some ping_test) (py "10.0.0.1") (py "false") (py "2020-01-02_03-04-05")
             (py "vagrant") (py "vagrant") empty_state in
  fst r = Raise TypeError
  /\ fs_read [py "2020-01-02_03-04-05-ping_test"; py "10.0.0.1.err"] (output_content (snd r))
     = Some [].
Proof.
  pose proof (host_configure_err_file ascii_lower no_encoding
                (sample_world [] (bytes_of "boom") [] []) ping_test
                (py "10.0.0.1") (py "false") (py "2020-01-02_03-04-05")
                (py "vagrant") (py "vagrant") [] (bytes_of "boom") empty_state
                eq_refl) as H.
  destruct H as [H1 [H2 _]]; [discriminate | reflexivity |].
  split; [exact H1 | exact H2].
Defined.

(** ** The local command runner *)

Lemma run_command_noisy
    (str_lower : pystr -> pystr) (encode : pystr -> bytes) (w : world) (task : Task)
    (timestamp : pystr) (argv : list pystr) (returncode : Z) (stdout stderr : bytes)
    (s : state) :
  shlex_split (t_command task) = Some argv ->
  local_process w argv = Exits returncode stdout stderr ->
  truthy stdout || truthy stderr = true ->
  let file := [get_task_id str_lower task timestamp ++ first_suffix stdout] in
  run_command str_lower encode w task timestamp s
  = match fs_open_w file (output_content s) with
    | Some d' =>
        (Raise TypeError,
         {| output_content := d'; capture_content := capture_content s;
            trace := trace s ++ [ECommandStart argv; ECommandExit returncode] |})
    | None =>
        (Raise OSError,
         {| output_content := output_content s; capture_content := capture_content s;
            trace := trace s ++ [ECommandStart argv; ECommandExit returncode] |})
    end.
Proof.
  intros Hsplit Hproc Hout file. unfold run_command. rewrite Hsplit, Hproc.
  run_monad. subst file. unfold first_suffix. rewrite <- !app_assoc. simpl.
  destruct (truthy stdout) eqn:Hso; simpl;
    [|simpl in Hout; rewrite Hout; simpl];
    match goal with
    | |- context [fs_open_w ?p ?d] => destruct (fs_open_w p d); reflexivity
    end.
Qed.

Lemma run_command_quiet
    (str_lower : pystr -> pystr) (encode : pystr -> bytes) (w : world) (task : Task)
    (timestamp : pystr) (argv : list pystr) (returncode : Z) (s : state) :
  shlex_split (t_command task) = Some argv ->
  local_process w argv = Exits returncode [] [] ->
  run_command str_lower encode w task timestamp s
  = (Ok tt, {| output_content := output_content s; capture_content := capture_content s;
               trace := trace s ++ [ECommandStart argv; ECommandExit returncode] |}).
Proof.
  intros Hsplit Hproc. unfold run_command. rewrite Hsplit, Hproc.
  run_monad. rewrite <- !app_assoc. reflexivity.
Qed.

(** C8. For a command that prints on standard output, with no entry of the
    log's name in the output directory yet: the log file is created directly
    in the output directory, but the runner raises [TypeError] on the write,
    so the file stays empty instead of holding the output, and the error file
    is not written, whatever the error stream held. *)
Theorem run_command_log_file
    (str_lower : pystr -> pystr) (encode : pystr -> bytes) (w : world) (task : Task)
    (timestamp : pystr) (argv : list pystr) (returncode : Z) (stdout stderr : bytes)
    (s : state) :
  shlex_split (t_command task) = Some argv ->
  local_process w argv = Exits returncode stdout stderr ->
  stdout <> [] ->
  let log_filename := get_task_id str_lower task timestamp ++ py ".log" in
  lookup log_filename (output_content s) = None ->
  run_command str_lower encode w task timestamp s
  = (Raise TypeError,
     {| output_content := output_content s ++ [(log_filename, File [])];
        capture_content := capture_content s;
        trace := trace s ++ [ECommandStart argv; ECommandExit returncode] |})
  /\ fs_read [log_filename]
       (output_content (snd (run_command str_lower encode w task timestamp s)))
     <> Some stdout.
Proof.
  intros Hsplit Hproc Hso log_filename Hfresh.
  assert (Htr : truthy stdout = true) by (destruct stdout; [contradiction | reflexivity]).
  assert (Hout : truthy stdout || truthy stderr = true) by (rewrite Htr; reflexivity).
  rewrite (run_command_noisy str_lower encode w task timestamp argv returncode
             stdout stderr s Hsplit Hproc Hout).
  unfold first_suffix. rewrite Htr. fold log_filename.
  rewrite fs_open_w_file, Hfresh, (put_fresh _ _ _ Hfresh). split; [reflexivity|].
  simpl. rewrite fs_read_file, lookup_app, Hfresh. simpl. rewrite str_eqb_refl.
  intros H. injection H as H. symmetry in H. contradiction.
Qed.

Lemma run_command_log_file_witness :
  run_command ascii_lower no_encoding (sample_world [] [] (bytes_of "PING") (bytes_of "warn"))
    ping_test (py "2020-01-02_03-04-05") empty_state
  = (Raise TypeError,
     {| output_content := [(py "2020-01-02_03-04-05-ping_test.log", File [])];
        capture_content := [];
        trace := [ECommandStart [py "ping"; py "-c1"; py "localhost"]; ECommandExit 0] |}).
Proof.
  apply (run_command_log_file ascii_lower no_encoding
           (sample_world [] [] (bytes_of "PING") (bytes_of "warn")) ping_test
           (py "2020-01-02_03-04-05") [py "ping"; py "-c1"; py "localhost"] 0
           (bytes_of "PING") (bytes_of "warn") empty_state);
    [reflexivity | reflexivity | discriminate | reflexivity].
Defined.

(** ** The orchestrator *)

(** The first step of [process_creator_task]: the loop over the task's
    host configurations. *)
Definition configure_hosts (str_lower : pystr -> pystr) (encode : pystr -> bytes) (w : world)
    (global_task : option Task) (task : Task) (args : Args) : M unit :=
  match t_configuration task with
  | Some hosts =>
      for_each hosts (fun host_configuration =>
        host_configure str_lower encode w global_task
          (h_ip host_configuration) (h_command host_configuration)
          (strftime w) (username args) (password args))
  | None => ret tt
  end.

Lemma process_creator_task_steps
    (str_lower : pystr -> pystr) (encode : pystr -> bytes) (w : world)
    (global_task : option Task) (task : Task) (capture_directory : pystr) (args : Args) :
  process_creator_task str_lower encode w global_task task capture_directory args
  = (configure_hosts str_lower encode w global_task task args ;;
     tshark_process <- start_tshark str_lower w task (interface args) capture_directory
                         (strftime w) ;;
     run_command str_lower encode w task (strftime w) ;;
     sleep w (delay args) ;;
     terminate tshark_process ;;
     move_files).
Proof. reflexivity. Qed.

Lemma for_each_raise {A} (pre post : list A) (x : A) (body : A -> M unit)
    (s s0 s1 : state) (e : exn) :
  for_each pre body s = (Ok tt, s0) ->
  body x s0 = (Raise e, s1) ->
  for_each (pre ++ x :: post) body s = (Raise e, s1).
Proof.
  revert s. induction pre as [|y pre IH]; intros s; simpl.
  - intros H. injection H as <-. intros Hx. unfold bind. rewrite Hx. reflexivity.
  - unfold bind. destruct (body y s) as [[[]|e'] s'] eqn:Hy; [|discriminate].
    intros Hpre Hx. apply IH; assumption.
Qed.

Lemma start_tshark_ok
    (str_lower : pystr -> pystr) (w : world) (task : Task)
    (network_interface capture_directory timestamp : pystr)
    (argv : list pystr) (effect : dir -> dir) (s : state) :
  tshark_argv str_lower task network_interface capture_directory timestamp = Some argv ->
  capture_tool w argv = Some effect ->
  start_tshark str_lower w task network_interface capture_directory timestamp s
  = (Ok argv, {| output_content := output_content s;
                 capture_content := effect (capture_content s);
                 trace := trace s ++ [ECaptureStart argv] |}).
Proof. intros Ha Ht. unfold start_tshark. rewrite Ha, Ht. reflexivity. Qed.

Lemma sleep_granted (w : world) (seconds : Z) (s : state) :
  (0 <= seconds <= sleep_max)%Z ->
  clock_sleep w seconds = None ->
  sleep w seconds s = emit (ESleep seconds) s.
Proof.
  intros Hrange Hclock. unfold sleep.
  replace (seconds <? - sleep_max)%Z with false
    by (symmetry; apply Z.ltb_ge; unfold sleep_max in *; lia).
  replace (sleep_max <? seconds)%Z with false by (symmetry; apply Z.ltb_ge; lia).
  replace (seconds <? 0)%Z with false by (symmetry; apply Z.ltb_ge; lia).
  simpl. rewrite Hclock. reflexivity.
Qed.

(** When nothing is printed by the command and the sleep is granted, the
    steps follow in the order of the source: capture start, command, sleep,
    termination, collection. *)
Lemma process_creator_task_quiet
    (str_lower : pystr -> pystr) (encode : pystr -> bytes) (w : world)
    (global_task : option Task) (task : Task) (capture_directory : pystr) (args : Args)
    (capture_argv argv : list pystr) (effect : dir -> dir) (returncode : Z) (s : state) :
  t_configuration task = None ->
  tshark_argv str_lower task (interface args) capture_directory (strftime w)
  = Some capture_argv ->
  capture_tool w capture_argv = Some effect ->
  shlex_split (t_command task) = Some argv ->
  local_process w argv = Exits returncode [] [] ->
  (0 <= delay args <= sleep_max)%Z ->
  clock_sleep w (delay args) = None ->
  process_creator_task str_lower encode w global_task task capture_directory args s
  = move_files {| output_content := output_content s;
                  capture_content := effect (capture_content s);
                  trace := trace s ++ [ECaptureStart capture_argv; ECommandStart argv;
                                       ECommandExit returncode; ESleep (delay args);
                                       ECaptureTerminate capture_argv] |}.
Proof.
  intros Hconf Hargv Htool Hsplit Hproc Hdelay Hclock.
  rewrite process_creator_task_steps. unfold configure_hosts. rewrite Hconf.
  unfold bind at 1. unfold ret at 1. unfold bind at 1.
  rewrite (start_tshark_ok _ _ _ _ _ _ _ _ _ Hargv Htool).
  unfold bind at 1.
  rewrite (run_command_quiet _ _ _ _ _ _ _ _ Hsplit Hproc).
  unfold bind at 1. rewrite (sleep_granted _ _ _ Hdelay Hclock).
  unfold terminate. run_monad. rewrite <- !app_assoc. reflexivity.
Qed.

Lemma configure_hosts_none
    (str_lower : pystr -> pystr) (encode : pystr -> bytes) (w : world)
    (global_task : option Task) (task : Task) (args : Args) (s : state) :
  t_configuration task = None ->
  configure_hosts str_lower encode w global_task task args s = (Ok tt, s).
Proof. intros H. unfold configure_hosts. rewrite H. reflexivity. Qed.

(** The state in which the runner's exception leaves the task. *)
Lemma process_creator_task_run_raises
    (str_lower : pystr -> pystr) (encode : pystr -> bytes) (w : world)
    (global_task : option Task) (task : Task) (capture_directory : pystr) (args : Args)
    (capture_argv argv : list pystr) (effect : dir -> dir) (returncode : Z)
    (stdout stderr : bytes) (s s0 : state) :
  configure_hosts str_lower encode w global_task task args s = (Ok tt, s0) ->
  tshark_argv str_lower task (interface args) capture_directory (strftime w)
  = Some capture_argv ->
  capture_tool w capture_argv = Some effect ->
  shlex_split (t_command task) = Some argv ->
  local_process w argv = Exits returncode stdout stderr ->
  truthy stdout || truthy stderr = true ->
  let file := [get_task_id str_lower task (strftime w) ++ first_suffix stdout] in
  let events := [ECaptureStart capture_argv; ECommandStart argv; ECommandExit returncode] in
  process_creator_task str_lower encode w global_task task capture_directory args s
  = match fs_open_w file (output_content s0) with
    | Some d' =>
        (Raise TypeError,
         {| output_content := d'; capture_content := effect (capture_content s0);
            trace := trace s0 ++ events |})
    | None =>
        (Raise OSError,
         {| output_content := output_content s0;
            capture_content := effect (capture_content s0);
            trace := trace s0 ++ events |})
    end.
Proof.
  intros Hconf Hargv Htool Hsplit Hproc Hout file events.
  rewrite process_creator_task_steps.
  unfold bind at 1. rewrite Hconf. unfold bind at 1.
  rewrite (start_tshark_ok _ _ _ _ _ _ _ _ _ Hargv Htool).
  unfold bind at 1.
  rewrite (run_command_noisy _ _ _ _ _ _ _ _ _ _ Hsplit Hproc Hout). simpl.
  subst file events.
  destruct (fs_open_w _ _); simpl; rewrite <- ?app_assoc; reflexivity.
Qed.

(** C3. A task whose command prints something never reaches the settle
    delay: the capture is started, the command runs and exits, and then the
    runner's exception ends [process_creator_task]; no sleep, no termination
    of the capture and no collection follow. *)
Theorem process_creator_task_noisy
    (str_lower : pystr -> pystr) (encode : pystr -> bytes) (w : world)
    (global_task : option Task) (task : Task) (capture_directory : pystr) (args : Args)
    (capture_argv argv : list pystr) (effect : dir -> dir) (returncode : Z)
    (stdout stderr : bytes) (s : state) :
  t_configuration task = None ->
  tshark_argv str_lower task (interface args) capture_directory (strftime w)
  = Some capture_argv ->
  capture_tool w capture_argv = Some effect ->
  shlex_split (t_command task) = Some argv ->
  local_process w argv = Exits returncode stdout stderr ->
  truthy stdout || truthy stderr = true ->
  let r := process_creator_task str_lower encode w global_task task capture_directory args s in
  (fst r = Raise TypeError \/ fst r = Raise OSError)
  /\ trace (snd r)
     = trace s ++ [ECaptureStart capture_argv; ECommandStart argv; ECommandExit returncode]
  /\ capture_content (snd r) = effect (capture_content s).
Proof.
  intros Hconf Hargv Htool Hsplit Hproc Hout r. subst r.
  rewrite (process_creator_task_run_raises str_lower encode w global_task task
             capture_directory args capture_argv argv effect returncode stdout stderr s s
             (configure_hosts_none _ _ _ _ _ _ _ Hconf) Hargv Htool Hsplit Hproc Hout).
  destruct (fs_open_w _ _); simpl; auto.
Qed.

Definition sample_args : Args :=
  {| interface := py "enp0s8"; delay := 3; username := py "vagrant"; password := py "vagrant" |}.

Lemma process_creator_task_noisy_witness :
  trace (snd (process_creator_task ascii_lower no_encoding
                (sample_world [] [] (bytes_of "PING") []) (Some ping_test) ping_test
                tmp_capture sample_args empty_state))
  = [ECaptureStart [py "tshark"; py "-i"; py "enp0s8"; py "-q"; py "-w";
                    py "/tmp/capture/2020-01-02_03-04-05-ping_test.pcang";
                    py "-F"; py "pcapng"];
     ECommandStart [py "ping"; py "-c1"; py "localhost"];
     ECommandExit 0].
Proof.
  apply (process_creator_task_noisy ascii_lower no_encoding
           (sample_world [] [] (bytes_of "PING") []) (Some ping_test) ping_test
           tmp_capture sample_args
           [py "tshark"; py "-i"; py "enp0s8"; py "-q"; py "-w";
            py "/tmp/capture/2020-01-02_03-04-05-ping_test.pcang"; py "-F"; py "pcapng"]
           [py "ping"; py "-c1"; py "localhost"] (fun d => d) 0 (bytes_of "PING") []
           empty_state); reflexivity.
Defined.

(** ** Persisting output *)

Lemma task_loop_raise
    (str_lower : pystr -> pystr) (encode : pystr -> bytes) (ws : nat -> world) (k : nat)
    (task : Task) (rest : list Task) (args : Args) (s s' : state) (e : exn) :
  process_creator_task str_lower encode (ws k) (Some task) task tmp_capture args s
  = (Raise e, s') ->
  task_loop str_lower encode ws k (task :: rest) args s = (Raise e, s').
Proof. intros H. simpl. unfold bind. rewrite H. reflexivity. Qed.

Lemma process_creator_task_configure_raises
    (str_lower : pystr -> pystr) (encode : pystr -> bytes) (w : world)
    (global_task : option Task) (task : Task) (capture_directory : pystr) (args : Args)
    (s s' : state) (e : exn) :
  configure_hosts str_lower encode w global_task task args s = (Raise e, s') ->
  process_creator_task str_lower encode w global_task task capture_directory args s
  = (Raise e, s').
Proof.
  intros H. rewrite process_creator_task_steps. unfold bind at 1. rewrite H. reflexivity.
Qed.

(** C10. In the task loop, output that is to be persisted ends the run with
    [TypeError], leaving an empty file:
    - a task whose local command prints on either stream, once its hosts are
      configured and the capture is started: the file the runner opens (the
      log, or the error file when only the error stream has content) is left
      empty, the exception is the result of the whole loop, and the remaining
      tasks are not processed;
    - a host configuration whose remote command prints on either stream,
      after the configurations before it: likewise for the file the
      configurator opens in the directory of the task's identity. *)
Theorem persisting_output_raises_TypeError
    (str_lower : pystr -> pystr) (encode : pystr -> bytes) (ws : nat -> world) (k : nat)
    (task : Task) (rest : list Task) (args : Args) (s s0 : state) (d' : dir)
    (stdout stderr : bytes) :
  let w := ws k in
  let identity := get_task_id str_lower task (strftime w) in
  (forall capture_argv argv effect returncode,
     configure_hosts str_lower encode w (Some task) task args s = (Ok tt, s0) ->
     tshark_argv str_lower task (interface args) tmp_capture (strftime w) = Some capture_argv ->
     capture_tool w capture_argv = Some effect ->
     shlex_split (t_command task) = Some argv ->
     local_process w argv = Exits returncode stdout stderr ->
     truthy stdout || truthy stderr = true ->
     fs_open_w [identity ++ first_suffix stdout] (output_content s0) = Some d' ->
     task_loop str_lower encode ws k (task :: rest) args s
     = (Raise TypeError,
        {| output_content := d'; capture_content := effect (capture_content s0);
           trace := trace s0 ++ [ECaptureStart capture_argv; ECommandStart argv;
                                 ECommandExit returncode] |})
     /\ fs_read [identity ++ first_suffix stdout] d' = Some [])
  /\
  (forall before host_configuration after,
     t_configuration task = Some (before ++ host_configuration :: after) ->
     for_each before (fun hc =>
       host_configure str_lower encode w (Some task) (h_ip hc) (h_command hc)
         (strftime w) (username args) (password args)) s = (Ok tt, s0) ->
     ssh w (h_ip host_configuration) (h_command host_configuration)
     = SshStreams stdout stderr ->
     truthy stdout || truthy stderr = true ->
     fs_open_w [identity; h_ip host_configuration ++ first_suffix stdout]
       (with_directory identity (output_content s0)) = Some d' ->
     task_loop str_lower encode ws k (task :: rest) args s
     = (Raise TypeError,
        {| output_content := d'; capture_content := capture_content s0;
           trace := trace s0 ++ [ESshConnect (h_ip host_configuration)
                                   (username args) (password args);
                                 ESshExec (h_command host_configuration)] |})
     /\ fs_read [identity; h_ip host_configuration ++ first_suffix stdout] d' = Some []).
Proof.
  intros w identity. split.
  - intros capture_argv argv effect returncode Hconf Hargv Htool Hsplit Hproc Hout Hopen.
    split; [|eapply fs_open_w_read; eassumption].
    apply task_loop_raise. fold w.
    rewrite (process_creator_task_run_raises str_lower encode w (Some task) task
               tmp_capture args capture_argv argv effect returncode stdout stderr s s0
               Hconf Hargv Htool Hsplit Hproc Hout).
    fold identity. rewrite Hopen. reflexivity.
  - intros before hc after Hconf Hbefore Hssh Hout Hopen.
    split; [|eapply fs_open_w_read; eassumption].
    apply task_loop_raise. fold w.
    apply process_creator_task_configure_raises.
    unfold configure_hosts. rewrite Hconf.
    apply for_each_raise with (s0 := s0); [exact Hbefore|].
    rewrite (host_configure_noisy str_lower encode w task (h_ip hc) (h_command hc)
               (strftime w) (username args) (password args) stdout stderr s0 Hssh Hout).
    fold identity. rewrite Hopen. reflexivity.
Qed.

Definition sample_host : HostConfigEntry :=
  {| h_ip := py "10.0.0.1"; h_command := py "uptime" |}.

Definition ping_with_host : Task :=
  {| t_name := py "Ping Test"; t_command := py "ping -c1 localhost";
     t_filter := None; t_configuration := Some [sample_host] |}.

Lemma persisting_output_raises_TypeError_witness :
  task_loop ascii_lower no_encoding (fun _ => sample_world [] [] (bytes_of "PING") [])
    0 [ping_test; ping_test] sample_args empty_state
  = (Raise TypeError,
     {| output_content := [(py "2020-01-02_03-04-05-ping_test.log", File [])];
        capture_content := [];
        trace := [ECaptureStart [py "tshark"; py "-i"; py "enp0s8"; py "-q"; py "-w";
                                 py "/tmp/capture/2020-01-02_03-04-05-ping_test.pcang";
                                 py "-F"; py "pcapng"];
                  ECommandStart [py "ping"; py "-c1"; py "localhost"];
                  ECommandExit 0] |})
  /\
  task_loop ascii_lower no_encoding (fun _ => sample_world (bytes_of "up") [] [] [])
    0 [ping_with_host; ping_test] sample_args empty_state
  = (Raise TypeError,
     {| output_content := [(py "2020-01-02_03-04-05-ping_test",
                            Dir [(py "10.0.0.1.log", File [])])];
        capture_content := [];
        trace := [ESshConnect (py "10.0.0.1") (py "vagrant") (py "vagrant");
                  ESshExec (py "uptime")] |}).
Proof.
  split.
  - apply (proj1 (persisting_output_raises_TypeError ascii_lower no_encoding
                    (fun _ => sample_world [] [] (bytes_of "PING") []) 0
                    ping_test [ping_test] sample_args empty_state empty_state
                    [(py "2020-01-02_03-04-05-ping_test.log", File [])]
                    (bytes_of "PING") [])
             [py "tshark"; py "-i"; py "enp0s8"; py "-q"; py "-w";
              py "/tmp/capture/2020-01-02_03-04-05-ping_test.pcang"; py "-F"; py "pcapng"]
             [py "ping"; py "-c1"; py "localhost"] (fun d => d) 0%Z);
      reflexivity.
  - apply (proj2 (persisting_output_raises_TypeError ascii_lower no_encoding
                    (fun _ => sample_world (bytes_of "up") [] [] []) 0
                    ping_with_host [ping_test] sample_args empty_state empty_state
                    [(py "2020-01-02_03-04-05-ping_test", Dir [(py "10.0.0.1.log", File [])])]
                    (bytes_of "up") [])
             [] sample_host []);
      reflexivity.
Defined.

(** ** The capture invocation *)

(** A character [shlex] treats as part of a word wherever it stands. *)
Definition plain_char (c : char) : bool :=
  negb (mem c whitespace) && negb (mem c quotes) && negb (mem c escape).

(** A non-empty string that [shlex.split] leaves as one argument. *)
Definition plain_word (s : pystr) : bool :=
  match s with
  | [] => false
  | _ :: _ => forallb plain_char s
  end.

Definition with_tokens (tokens : list pystr) (l : lexer) : lexer :=
  {| l_state := l_state l; l_token := l_token l; l_quoted := l_quoted l;
     l_tokens := tokens ++ l_tokens l |}.

Ltac lex_step := unfold lex_char; cbn [l_state l_token l_quoted l_tokens].

Lemma lex_run_app (l : lexer) (a b : pystr) :
  lex_run l (a ++ b) = lex_run (lex_run l a) b.
Proof. apply fold_left_app. Qed.

Lemma lex_run_cons (l : lexer) (c : char) (s : pystr) :
  lex_run l (c :: s) = lex_run (lex_char l c) s.
Proof. reflexivity. Qed.

Lemma lex_break_frame (tokens : list pystr) (l : lexer) :
  lex_break (with_tokens tokens l) = with_tokens tokens (lex_break l).
Proof.
  unfold lex_break, with_tokens. simpl.
  destruct (l_token l), (l_quoted l); simpl; rewrite ?app_assoc; reflexivity.
Qed.

Lemma lex_char_frame (tokens : list pystr) (l : lexer) (c : char) :
  lex_char (with_tokens tokens l) c = with_tokens tokens (lex_char l c).
Proof.
  unfold lex_char. simpl.
  destruct (l_state l) as [| |q|[q|]];
    repeat match goal with
      | |- context [if ?b then _ else _] => destruct b
      end;
    try apply lex_break_frame; reflexivity.
Qed.

Lemma lex_run_frame (tokens : list pystr) (s : pystr) (l : lexer) :
  lex_run (with_tokens tokens l) s = with_tokens tokens (lex_run l s).
Proof.
  revert l. induction s as [|c s IH]; intros l; simpl; [reflexivity|].
  rewrite lex_char_frame. apply IH.
Qed.

Lemma plain_char_spec (c : char) :
  plain_char c = true ->
  mem c whitespace = false /\ mem c quotes = false /\ mem c escape = false.
Proof.
  unfold plain_char. intros H.
  apply andb_true_iff in H as [H Hesc]. apply andb_true_iff in H as [Hws Hq].
  repeat split; apply negb_true_iff; assumption.
Qed.

Lemma lex_word_plain (s t : pystr) (q : bool) (tokens : list pystr) :
  forallb plain_char s = true ->
  lex_run {| l_state := LWord; l_token := t; l_quoted := q; l_tokens := tokens |} s
  = {| l_state := LWord; l_token := t ++ s; l_quoted := q; l_tokens := tokens |}.
Proof.
  revert t. induction s as [|c s IH]; intros t; simpl.
  - rewrite app_nil_r. reflexivity.
  - intros H. apply andb_true_iff in H as [Hc Hs].
    destruct (plain_char_spec c Hc) as [Hws [Hq Hesc]].
    lex_step. rewrite Hws, Hq, Hesc.
    rewrite IH by assumption. rewrite <- app_assoc. reflexivity.
Qed.

Lemma lex_space_plain (s : pystr) (q : bool) (tokens : list pystr) :
  plain_word s = true ->
  lex_run {| l_state := LSpace; l_token := []; l_quoted := q; l_tokens := tokens |} s
  = {| l_state := LWord; l_token := s; l_quoted := q; l_tokens := tokens |}.
Proof.
  destruct s as [|c s]; [discriminate|]. unfold plain_word.
  intros H. simpl in H. apply andb_true_iff in H as [Hc Hs].
  destruct (plain_char_spec c Hc) as [Hws [Hq Hesc]].
  simpl. lex_step. rewrite Hws, Hq, Hesc.
  rewrite lex_word_plain by assumption. reflexivity.
Qed.

(** After a word, a space and then a literal: the word is emitted and the
    literal is read from a fresh lexer. *)
Lemma lex_word_space (t lit : pystr) (q : bool) (tokens : list pystr) :
  t <> [] ->
  lex_run {| l_state := LWord; l_token := t; l_quoted := q; l_tokens := tokens |} (32%N :: lit)
  = with_tokens (tokens ++ [t]) (lex_run lex_init lit).
Proof.
  intros Ht. rewrite <- lex_run_frame. simpl. lex_step.
  change (mem 32%N whitespace) with true. cbv iota.
  unfold lex_break. cbn [l_state l_token l_quoted l_tokens].
  destruct t as [|c t]; [contradiction|].
  unfold with_tokens, lex_init. simpl. rewrite app_nil_r. reflexivity.
Qed.

(** The body of a double-quoted string without double quote or backslash,
    and the closing quote. *)
Lemma lex_dquoted (s t : pystr) (q : bool) (tokens : list pystr) :
  mem dquote s = false -> mem backslash s = false ->
  lex_run {| l_state := LQuote dquote; l_token := t; l_quoted := q; l_tokens := tokens |}
    (s ++ [dquote])
  = {| l_state := LWord; l_token := t ++ s; l_quoted := true; l_tokens := tokens |}.
Proof.
  revert t q. induction s as [|c s IH]; intros t q.
  - intros _ _. rewrite app_nil_r. reflexivity.
  - intros Hdq Hbs.
    change (N.eqb dquote c || mem dquote s = false) in Hdq.
    change (N.eqb backslash c || mem backslash s = false) in Hbs.
    apply orb_false_iff in Hdq as [Hc1 Hdq]. apply orb_false_iff in Hbs as [Hc2 Hbs].
    rewrite <- app_comm_cons, lex_run_cons.
    lex_step. rewrite N.eqb_sym in Hc1. rewrite Hc1.
    unfold mem at 1, escape. cbn [existsb]. rewrite N.eqb_sym in Hc2. rewrite Hc2.
    cbn [orb andb].
    rewrite IH by assumption. rewrite <- app_assoc. reflexivity.
Qed.

Lemma plain_word_nonempty (s : pystr) : plain_word s = true -> s <> [].
Proof. destruct s; [discriminate | discriminate]. Qed.

Lemma plain_word_forallb (s : pystr) :
  s <> [] -> forallb plain_char s = true -> plain_word s = true.
Proof. destruct s; [contradiction | intros _ H; exact H]. Qed.

Lemma tshark_base_lex
    (str_lower : pystr -> pystr) (task : Task)
    (network_interface capture_directory timestamp : pystr) :
  plain_word network_interface = true ->
  plain_word (capture_file_path str_lower task capture_directory timestamp) = true ->
  lex_run lex_init (tshark_base str_lower task network_interface capture_directory timestamp)
  = {| l_state := LWord; l_token := py "pcapng"; l_quoted := false;
       l_tokens := [py "tshark"; py "-i"; network_interface; py "-q"; py "-w";
                    capture_file_path str_lower task capture_directory timestamp;
                    py "-F"] |}.
Proof.
  intros Hif Hpath. unfold tshark_base. rewrite !lex_run_app.
  change (lex_run lex_init (py "tshark -i "))
    with {| l_state := LSpace; l_token := []; l_quoted := false;
            l_tokens := [py "tshark"; py "-i"] |}.
  rewrite lex_space_plain by assumption.
  change (py " -q -w ") with (32%N :: py "-q -w ").
  rewrite lex_word_space by (apply plain_word_nonempty; assumption).
  change (lex_run lex_init (py "-q -w "))
    with {| l_state := LSpace; l_token := []; l_quoted := false;
            l_tokens := [py "-q"; py "-w"] |}.
  unfold with_tokens. cbn [l_state l_token l_quoted l_tokens app].
  rewrite lex_space_plain by assumption.
  change (py " -F pcapng") with (32%N :: py "-F pcapng").
  rewrite lex_word_space by (apply plain_word_nonempty; assumption).
  reflexivity.
Qed.

(** The arguments of the capture process, for an interface and a capture
    file path that are plain words. *)
Lemma tshark_argv_plain
    (str_lower : pystr -> pystr) (task : Task)
    (network_interface capture_directory timestamp : pystr) :
  plain_word network_interface = true ->
  plain_word (capture_file_path str_lower task capture_directory timestamp) = true ->
  let base := [py "tshark"; py "-i"; network_interface; py "-q"; py "-w";
               capture_file_path str_lower task capture_directory timestamp;
               py "-F"; py "pcapng"] in
  match t_filter task with
  | None =>
      tshark_argv str_lower task network_interface capture_directory timestamp = Some base
  | Some f =>
      mem dquote f = false -> mem backslash f = false ->
      tshark_argv str_lower task network_interface capture_directory timestamp
      = Some (base ++ [py "-f"; f])
  end.
Proof.
  intros Hif Hpath base. unfold tshark_argv, tshark_command, shlex_split.
  destruct (t_filter task) as [f|].
  - intros Hdq Hbs. rewrite lex_run_app, (tshark_base_lex _ _ _ _ _ Hif Hpath).
    rewrite lex_run_app.
    change (py " -f ") with (32%N :: py "-f ").
    rewrite lex_word_space by discriminate.
    change (lex_run lex_init (py "-f "))
      with {| l_state := LSpace; l_token := []; l_quoted := false; l_tokens := [py "-f"] |}.
    unfold with_tokens. cbn [l_state l_token l_quoted l_tokens app].
    change ([dquote] ++ f ++ [dquote]) with (dquote :: (f ++ [dquote])).
    rewrite lex_run_cons.
    match goal with
    | |- context [lex_char ?l dquote] =>
        change (lex_char l dquote)
          with {| l_state := LQuote dquote; l_token := []; l_quoted := false;
                  l_tokens := l_tokens l |}
    end.
    cbn [l_tokens]. rewrite lex_dquoted by assumption.
    unfold lex_eof, lex_break. cbn [l_state l_token l_quoted l_tokens app].
    destruct f; reflexivity.
  - rewrite (tshark_base_lex _ _ _ _ _ Hif Hpath). reflexivity.
Qed.

Lemma timestamp_char_plain (c : char) :
  is_timestamp_char c = true -> plain_char c = true.
Proof.
  intros Hts. unfold plain_char.
  assert (Hl : forall l, (forall x, In x l -> is_timestamp_char x = false) ->
                         mem c l = false).
  { intros l Hl. destruct (mem c l) eqn:E; [|reflexivity].
    apply mem_In in E. rewrite (Hl c E) in Hts. discriminate. }
  rewrite !Hl; [reflexivity | ..]; intros x Hx; simpl in Hx;
    repeat (destruct Hx as [<- | Hx]; [reflexivity|]); contradiction.
Qed.

Lemma forallb_timestamp_plain (ts : pystr) :
  is_timestamp ts = true -> forallb plain_char ts = true.
Proof.
  unfold is_timestamp. induction ts as [|c ts IH]; simpl; [reflexivity|].
  intros H. apply andb_true_iff in H as [Hc Hts].
  rewrite (timestamp_char_plain c Hc). simpl. apply IH. exact Hts.
Qed.

(** C5. For the task named "Ping Test" the capture is started with the
    arguments [tshark -i <interface> -q -w <path> -F pcapng], where the path
    is [/tmp/capture/<timestamp>-ping_test.pcang]: the extension of the
    capture file is [.pcang], not [.pcapng]. *)
Theorem start_tshark_ping_test
    (str_lower : pystr -> pystr) (network_interface timestamp : pystr) :
  str_lower (py "Ping Test") = py "ping test" ->
  is_timestamp timestamp = true ->
  plain_word network_interface = true ->
  tshark_argv str_lower ping_test network_interface tmp_capture timestamp
  = Some [py "tshark"; py "-i"; network_interface; py "-q"; py "-w";
          py "/tmp/capture/" ++ timestamp ++ py "-ping_test.pcang";
          py "-F"; py "pcapng"]
  /\ py "/tmp/capture/" ++ timestamp ++ py "-ping_test.pcang"
     <> py "/tmp/capture/" ++ timestamp ++ py "-ping_test.pcapng".
Proof.
  intros Hlower Hts Hif.
  assert (Hpath : capture_file_path str_lower ping_test tmp_capture timestamp
                  = py "/tmp/capture/" ++ timestamp ++ py "-ping_test.pcang").
  { unfold capture_file_path, get_task_id.
    change (firstn 50 (t_name ping_test)) with (py "Ping Test"). rewrite Hlower.
    unfold re_sub_unsafe. rewrite map_app. fold (re_sub_unsafe timestamp).
    rewrite re_sub_unsafe_timestamp by assumption.
    unfold tmp_capture. rewrite <- !app_assoc. reflexivity. }
  split.
  - pose proof (tshark_argv_plain str_lower ping_test network_interface tmp_capture
                  timestamp Hif) as H.
    rewrite Hpath in H. apply H. apply plain_word_forallb.
    + change (py "/tmp/capture/") with (47%N :: py "tmp/capture/"). discriminate.
    + rewrite !forallb_app. rewrite (forallb_timestamp_plain timestamp Hts). reflexivity.
  - intros H. apply app_inv_head in H. apply app_inv_head in H. discriminate.
Qed.

Lemma start_tshark_ping_test_witness :
  tshark_argv ascii_lower ping_test (py "enp0s8") tmp_capture (py "2020-01-02_03-04-05")
  = Some [py "tshark"; py "-i"; py "enp0s8"; py "-q"; py "-w";
          py "/tmp/capture/2020-01-02_03-04-05-ping_test.pcang";
          py "-F"; py "pcapng"].
Proof.
  apply (start_tshark_ping_test ascii_lower (py "enp0s8") (py "2020-01-02_03-04-05"));
    reflexivity.
Defined.

(** A filter that [shlex] reads as it stands between double quotes: it has
    no double quote, and each backslash in it is followed by a character
    that is neither a double quote nor a backslash. *)
Fixpoint quotable (f : pystr) : bool :=
  match f with
  | [] => true
  | c :: f' =>
      if N.eqb c dquote then false
      else if N.eqb c backslash then
        match f' with
        | [] => false
        | d :: f'' => negb (N.eqb d dquote) && negb (N.eqb d backslash) && quotable f''
        end
      else quotable f'
  end.

(** The characters the lexer has put into tokens, plus one while an escape
    character is pending; each character read adds at most one. *)
Fixpoint total_len (tokens : list pystr) : nat :=
  match tokens with
  | [] => 0
  | t :: tokens' => List.length t + total_len tokens'
  end.

Definition potential (l : lexer) : nat :=
  total_len (l_tokens l) + List.length (l_token l)
  + match l_state l with LEscape _ => 1 | _ => 0 end.

Lemma total_len_app (a b : list pystr) :
  total_len (a ++ b) = total_len a + total_len b.
Proof. induction a as [|t a IH]; simpl; [reflexivity | rewrite IH; lia]. Qed.

Lemma lex_break_total (l : lexer) :
  total_len (l_tokens (lex_break l)) = total_len (l_tokens l) + List.length (l_token l)
  /\ l_state (lex_break l) = LSpace /\ l_token (lex_break l) = []
  /\ l_quoted (lex_break l) = false.
Proof.
  unfold lex_break. destruct (l_token l) as [|c t], (l_quoted l); simpl;
    rewrite ?total_len_app; simpl; repeat split; lia.
Qed.

Lemma potential_break (l : lexer) : potential (lex_break l) <= potential l.
Proof.
  destruct (lex_break_total l) as [Ht [Hs [Hk _]]].
  unfold potential. rewrite Ht, Hs, Hk. simpl. lia.
Qed.

Lemma potential_char (l : lexer) (c : char) :
  potential (lex_char l c) <= potential l + 1.
Proof.
  pose proof (potential_break l) as Hb. unfold lex_char.
  destruct (l_state l) as [| |q|[q|]] eqn:Hs;
    repeat match goal with
      | |- context [if ?b then _ else _] => destruct b
      end;
    try (unfold potential in *; rewrite ?Hs in *; simpl; rewrite ?length_app; simpl; lia).
Qed.

Lemma potential_run (s : pystr) (l : lexer) :
  potential (lex_run l s) <= potential l + List.length s.
Proof.
  revert l. induction s as [|c s IH]; intros l; simpl; [lia|].
  pose proof (IH (lex_char l c)). pose proof (potential_char l c). lia.
Qed.

(** When the input ends with a double quote and can be split, that last
    character adds nothing. *)
Lemma lex_eof_after_dquote (l : lexer) (tokens : list pystr) :
  lex_eof (lex_char l dquote) = Some tokens -> total_len tokens <= potential l.
Proof.
  unfold lex_char, lex_eof.
  destruct (l_state l) as [| |q|[q|]] eqn:Hs; cbn [l_state]; simpl mem.
  - discriminate.
  - discriminate.
  - destruct (N.eqb dquote q); cbn [l_state].
    + intros H. injection H as <-.
      match goal with
      | |- context [lex_break ?x] => destruct (lex_break_total x) as [Ht _]; rewrite Ht
      end.
      unfold potential. simpl. lia.
    + destruct (mem q escapedquotes); simpl; discriminate.
  - discriminate.
  - intros H. injection H as <-.
    match goal with
    | |- context [lex_break ?x] => destruct (lex_break_total x) as [Ht _]; rewrite Ht
    end.
    unfold potential. rewrite Hs. simpl. rewrite length_app. simpl. lia.
Qed.

Lemma lex_eof_quoted_bound (s : pystr) (l : lexer) (tokens : list pystr) :
  lex_eof (lex_run l (s ++ [dquote])) = Some tokens ->
  total_len tokens <= potential l + List.length s.
Proof.
  rewrite lex_run_app. simpl. intros H. apply lex_eof_after_dquote in H.
  pose proof (potential_run s l). lia.
Qed.

Lemma lex_quotable (n : nat) :
  forall (f t : pystr) (q : bool) (tokens : list pystr),
    List.length f <= n ->
    quotable f = true ->
    lex_run {| l_state := LQuote dquote; l_token := t; l_quoted := q; l_tokens := tokens |}
      (f ++ [dquote])
    = {| l_state := LWord; l_token := t ++ f; l_quoted := true; l_tokens := tokens |}.
Proof.
  induction n as [|n IH]; intros f t q tokens Hlen Hq.
  - destruct f; [|simpl in Hlen; lia]. rewrite app_nil_r. reflexivity.
  - destruct f as [|c f]; [rewrite app_nil_r; reflexivity|].
    simpl in Hlen. cbn [quotable] in Hq.
    rewrite <- app_comm_cons, lex_run_cons. lex_step.
    destruct (N.eqb c dquote) eqn:Hc1; [discriminate|].
    destruct (N.eqb c backslash) eqn:Hc2.
    + apply N.eqb_eq in Hc2. subst c.
      destruct f as [|d f]; [discriminate|].
      apply andb_true_iff in Hq as [Hd Hq]. apply andb_true_iff in Hd as [Hd1 Hd2].
      apply negb_true_iff in Hd1, Hd2.
      change (mem backslash escape && mem dquote escapedquotes) with true. cbv iota.
      rewrite <- app_comm_cons, lex_run_cons. lex_step.
      rewrite Hd1, Hd2. cbn [negb andb].
      simpl in Hlen. rewrite IH by (assumption || lia).
      rewrite <- !app_assoc. reflexivity.
    + unfold mem at 1, escape. cbn [existsb]. rewrite Hc2. cbn [orb andb].
      rewrite IH by (assumption || lia). rewrite <- app_assoc. reflexivity.
Qed.

Lemma lex_quoted_verbatim (n : nat) :
  forall (f t : pystr) (q : bool) (tokens : list pystr),
    List.length f <= n ->
    lex_eof (lex_run {| l_state := LQuote dquote; l_token := t; l_quoted := q;
                        l_tokens := tokens |} (f ++ [dquote]))
    = Some (tokens ++ [t ++ f]) ->
    quotable f = true.
Proof.
  induction n as [|n IH]; intros f t q tokens Hlen H.
  - destruct f; [reflexivity | simpl in Hlen; lia].
  - destruct f as [|c f]; [reflexivity|].
    simpl in Hlen. cbn [quotable].
    rewrite <- app_comm_cons, lex_run_cons in H. revert H. lex_step.
    destruct (N.eqb c dquote) eqn:Hc1.
    + intros H. apply lex_eof_quoted_bound in H.
      rewrite total_len_app in H. unfold potential in H. simpl in H.
      rewrite length_app in H. simpl in H. lia.
    + destruct (N.eqb c backslash) eqn:Hc2.
      * apply N.eqb_eq in Hc2. subst c.
        change (mem backslash escape && mem dquote escapedquotes) with true. cbv iota.
        destruct f as [|d f]; [discriminate|].
        rewrite <- app_comm_cons, lex_run_cons. lex_step.
        rewrite (N.eqb_sym d backslash) at 1.
        destruct (N.eqb d dquote) eqn:Hd1; destruct (N.eqb backslash d) eqn:Hd2;
          cbn [negb andb]; intros H;
          try (apply lex_eof_quoted_bound in H;
               rewrite total_len_app in H; unfold potential in H; simpl in H;
               rewrite !length_app in H; simpl in H; lia).
        rewrite N.eqb_sym in Hd2. rewrite Hd2. simpl.
        apply (IH f (t ++ [backslash] ++ [d]) true tokens); [simpl in Hlen; lia|].
        rewrite H. rewrite <- !app_assoc. reflexivity.
      * unfold mem at 1, escape. cbn [existsb]. rewrite Hc2. cbn [orb andb].
        intros H. apply (IH f (t ++ [c]) true tokens); [lia|].
        rewrite H. rewrite <- app_assoc. reflexivity.
Qed.

(** After an input that can be split, a space starts a fresh token. *)
Lemma lex_eof_space (l : lexer) (tokens : list pystr) :
  lex_eof l = Some tokens ->
  lex_char l 32%N
  = {| l_state := LSpace; l_token := []; l_quoted := false; l_tokens := tokens |}.
Proof.
  unfold lex_eof, lex_char.
  destruct (l_state l); try discriminate;
    intros H; injection H as <-; change (mem 32%N whitespace) with true; cbv iota;
    unfold lex_break; destruct (l_token l), (l_quoted l); reflexivity.
Qed.

(** The lexer at the start of the filter, when the command line without the
    filter can be split. *)
Lemma tshark_argv_with_filter
    (str_lower : pystr -> pystr) (task : Task)
    (network_interface capture_directory timestamp f : pystr) (argv : list pystr) :
  t_filter task = Some f ->
  shlex_split (tshark_base str_lower task network_interface capture_directory timestamp)
  = Some argv ->
  tshark_argv str_lower task network_interface capture_directory timestamp
  = lex_eof (lex_run {| l_state := LQuote dquote; l_token := []; l_quoted := false;
                        l_tokens := argv ++ [py "-f"] |} (f ++ [dquote])).
Proof.
  intros Hfilter Hbase. unfold tshark_argv, tshark_command. rewrite Hfilter.
  unfold shlex_split in *. rewrite lex_run_app.
  change (py " -f " ++ [dquote] ++ f ++ [dquote])
    with (32%N :: py "-f " ++ dquote :: f ++ [dquote]).
  rewrite lex_run_cons, (lex_eof_space _ _ Hbase).
  rewrite lex_run_app.
  change (lex_run {| l_state := LSpace; l_token := []; l_quoted := false;
                     l_tokens := argv |} (py "-f "))
    with {| l_state := LSpace; l_token := []; l_quoted := false;
            l_tokens := argv ++ [py "-f"] |}.
  rewrite lex_run_cons. reflexivity.
Qed.

(** A task with a capture filter. *)
Definition filtered_task (f : pystr) : Task :=
  {| t_name := py "Ping Test"; t_command := py "ping -c1 localhost";
     t_filter := Some f; t_configuration := None |}.

(** A task without filter whose name holds two tabulations. *)
Definition tab_task : Task :=
  {| t_name := py "a" ++ [9%N] ++ py "-f" ++ [9%N] ++ py "b";
     t_command := py "ping -c1 localhost";
     t_filter := None; t_configuration := None |}.

(** The counterexample of C6: the filter [a\\b] (two backslashes) reaches the
    capture tool as [a\b]; a filter made of one double quote makes
    [shlex.split] raise, so that nothing is launched; and a task without
    filter whose name holds tabulations, which the identity keeps, is
    launched with a [-f] argument. *)
Lemma tshark_argv_filter_altered :
  tshark_argv ascii_lower (filtered_task (py "a\\b")) (py "enp0s8") tmp_capture
    (py "2020-01-02_03-04-05")
  = Some [py "tshark"; py "-i"; py "enp0s8"; py "-q"; py "-w";
          py "/tmp/capture/2020-01-02_03-04-05-ping_test.pcang";
          py "-F"; py "pcapng"; py "-f"; py "a\b"]
  /\ py "a\b" <> py "a\\b"
  /\ tshark_argv ascii_lower (filtered_task [dquote]) (py "enp0s8") tmp_capture
       (py "2020-01-02_03-04-05")
     = None
  /\ tshark_argv ascii_lower tab_task (py "enp0s8") tmp_capture (py "2020-01-02_03-04-05")
     = Some [py "tshark"; py "-i"; py "enp0s8"; py "-q"; py "-w";
             py "/tmp/capture/2020-01-02_03-04-05-a"; py "-f"; py "b.pcang";
             py "-F"; py "pcapng"].
Proof.
  split; [reflexivity|]. split; [discriminate|]. split; reflexivity.
Qed.

(** C6, amended. Without a filter the code adds nothing to the command
    line: the arguments are those of [tshark -i <interface> -q -w <path> -F
    pcapng] after splitting, which are exactly these eight words, with no
    [-f], when the interface and the capture file path are plain words.  With
    a filter, when the command line without it can be split, the capture is
    launched with these arguments followed by [-f] and the filter unchanged
    exactly when the filter holds no double quote and no backslash that is
    followed by a double quote or a backslash or that ends it. *)
Theorem tshark_argv_filter
    (str_lower : pystr -> pystr) (task : Task)
    (network_interface capture_directory timestamp : pystr) :
  let base := tshark_base str_lower task network_interface capture_directory timestamp in
  let argv := tshark_argv str_lower task network_interface capture_directory timestamp in
  (plain_word network_interface = true ->
   plain_word (capture_file_path str_lower task capture_directory timestamp) = true ->
   shlex_split base
   = Some [py "tshark"; py "-i"; network_interface; py "-q"; py "-w";
           capture_file_path str_lower task capture_directory timestamp;
           py "-F"; py "pcapng"])
  /\ (t_filter task = None -> argv = shlex_split base)
  /\ (forall f words,
        t_filter task = Some f ->
        shlex_split base = Some words ->
        (argv = Some (words ++ [py "-f"; f]) <-> quotable f = true)).
Proof.
  intros base argv. subst base argv. split; [|split].
  - intros Hif Hpath. unfold shlex_split.
    rewrite (tshark_base_lex _ _ _ _ _ Hif Hpath). reflexivity.
  - intros Hnone. unfold tshark_argv, tshark_command. rewrite Hnone. reflexivity.
  - intros f words Hfilter Hbase.
    rewrite (tshark_argv_with_filter _ _ _ _ _ _ _ Hfilter Hbase). split.
    + intros H.
      apply (lex_quoted_verbatim (List.length f) f [] false (words ++ [py "-f"]));
        [lia|]. rewrite H. rewrite <- app_assoc. reflexivity.
    + intros Hq.
      rewrite (lex_quotable (List.length f) f [] false (words ++ [py "-f"]))
        by (assumption || lia).
      unfold lex_eof, lex_break. cbn [l_state l_token l_quoted l_tokens app].
      destruct f; cbn [l_tokens]; rewrite <- app_assoc; reflexivity.
Qed.

Lemma tshark_argv_filter_witness :
  tshark_argv ascii_lower (filtered_task (py "ip proto \icmp")) (py "enp0s8") tmp_capture
    (py "2020-01-02_03-04-05")
  = Some ([py "tshark"; py "-i"; py "enp0s8"; py "-q"; py "-w";
           py "/tmp/capture/2020-01-02_03-04-05-ping_test.pcang";
           py "-F"; py "pcapng"] ++ [py "-f"; py "ip proto \icmp"]).
Proof.
  destruct (tshark_argv_filter ascii_lower (filtered_task (py "ip proto \icmp"))
              (py "enp0s8") tmp_capture (py "2020-01-02_03-04-05")) as [Hbase [_ Hfilter]].
  apply (Hfilter (py "ip proto \icmp") _ eq_refl (Hbase eq_refl eq_refl)).
  reflexivity.
Defined.

(** ** The artifact collector *)

Definition is_file (x : node) : bool :=
  match x with File _ => true | Dir _ => false end.

(** No entry of [source] meets a directory of its name in [destination], and
    no directory of [source] meets a file of its name. *)
Definition collectable (source destination : dir) : Prop :=
  forall n x, In (n, x) source ->
    match lookup n destination with
    | None => True
    | Some (File _) => is_file x = true
    | Some (Dir _) => False
    end.

(** A listing as [iterdir] gives it: distinct names, without the entries for
    the directory itself and its parent. *)
Definition listing (d : dir) : Prop :=
  NoDup (names d) /\ forall n, In n (names d) -> n <> py "." /\ n <> py "..".

Lemma shutil_move_collectable (n : pystr) (x : node) (destination : dir) :
  match lookup n destination with
  | None => True
  | Some (File _) => is_file x = true
  | Some (Dir _) => False
  end ->
  exists d, shutil_move (n, x) destination = Ok d
            /\ lookup n d = Some x
            /\ forall m, m <> n -> lookup m d = lookup m destination.
Proof.
  unfold shutil_move. destruct (lookup n destination) as [[data|sub]|] eqn:E.
  - destruct x as [data'|]; [|discriminate]. intros _.
    exists (put n (File data') destination). repeat split.
    + apply lookup_put_same.
    + intros m Hm. apply lookup_put_other. exact Hm.
  - contradiction.
  - intros _. exists (destination ++ [(n, x)]). repeat split.
    + rewrite lookup_app, E. simpl. rewrite str_eqb_refl. reflexivity.
    + intros m Hm. rewrite lookup_app. destruct (lookup m destination); [reflexivity|].
      simpl. rewrite str_eqb_neq by congruence. reflexivity.
Qed.

Lemma move_files_loop_cons (n : pystr) (x : node) (items : dir) (s : state) (d : dir) :
  n <> py "." -> n <> py ".." ->
  shutil_move (n, x) (output_content s) = Ok d ->
  move_files_loop ((n, x) :: items) s
  = move_files_loop items {| output_content := d;
                             capture_content := remove n (capture_content s);
                             trace := trace s ++ [EMove n] |}.
Proof.
  intros Hdot Hdotdot Hmove. unfold move_files_loop; fold move_files_loop.
  rewrite (str_eqb_neq _ _ Hdot), (str_eqb_neq _ _ Hdotdot).
  unfold bind. cbn [orb]. rewrite Hmove. reflexivity.
Qed.

Lemma move_files_loop_collects (items : dir) (s : state) :
  capture_content s = items ->
  listing items ->
  collectable items (output_content s) ->
  let r := move_files_loop items s in
  fst r = Ok tt
  /\ capture_content (snd r) = []
  /\ (forall n, lookup n (output_content (snd r))
                = match lookup n items with
                  | Some x => Some x
                  | None => lookup n (output_content s)
                  end)
  /\ trace (snd r) = trace s ++ map EMove (names items).
Proof.
  revert s. induction items as [|[n x] items IH]; intros s Hcap [Hnd Hdots] Hcoll.
  - simpl. rewrite app_nil_r. auto.
  - simpl in Hnd. inversion Hnd as [|? ? Hn Hnd']; subst.
    destruct (Hdots n (or_introl eq_refl)) as [Hdot Hdotdot].
    destruct (shutil_move_collectable n x (output_content s)
                (Hcoll n x (or_introl eq_refl))) as [d [Hmove [Hdn Hdother]]].
    cbv zeta. rewrite (move_files_loop_cons n x items s d Hdot Hdotdot Hmove).
    set (s1 := {| output_content := d;
                  capture_content := remove n (capture_content s);
                  trace := trace s ++ [EMove n] |}).
    assert (Hcap1 : capture_content s1 = items).
    { unfold s1. simpl. rewrite Hcap. simpl. rewrite str_eqb_refl.
      apply remove_not_in. exact Hn. }
    assert (Hlist1 : listing items).
    { split; [exact Hnd'|]. intros m Hm. apply Hdots. right. exact Hm. }
    assert (Hcoll1 : collectable items (output_content s1)).
    { intros m y Hin. unfold s1. simpl. rewrite Hdother.
      - apply Hcoll. right. exact Hin.
      - intros ->. apply Hn. change n with (fst (n, y)). apply in_map. exact Hin. }
    destruct (IH s1 Hcap1 Hlist1 Hcoll1) as [Hr [Hc [Hl Ht]]].
    repeat split; try assumption.
    + intros m. rewrite Hl. simpl lookup.
      destruct (str_eqb n m) eqn:Enm.
      * apply str_eqb_eq in Enm. subst m.
        apply lookup_None_names in Hn. rewrite Hn. exact Hdn.
      * destruct (lookup m items); [reflexivity|].
        unfold s1. simpl. apply Hdother.
        intros ->. rewrite str_eqb_refl in Enm. discriminate.
    + rewrite Ht. unfold s1. simpl. rewrite <- app_assoc. reflexivity.
Qed.

Definition conflict_state : state :=
  {| output_content := [(py "run", Dir [])];
     capture_content := [(py "run", Dir [(py "host.log", File (bytes_of "up"))])];
     trace := [] |}.

Definition blocked_state : state :=
  {| output_content := [(py "run", Dir [(py "run", File [])])];
     capture_content := [(py "run", Dir []); (py "trace.pcang", File (bytes_of "pcap"))];
     trace := [] |}.

(** The counterexample of C7: a directory of the capture directory whose
    name is that of a directory of the destination is not put in its place
    but moved inside it, so that the destination's entry of that name is not
    what the capture directory held; and when the name is taken there too,
    [shutil.move] raises and the capture directory keeps its entries. *)
Lemma move_files_directory_conflict :
  lookup (py "run") (output_content (snd (move_files conflict_state)))
  = Some (Dir [(py "run", Dir [(py "host.log", File (bytes_of "up"))])])
  /\ lookup (py "run") (output_content (snd (move_files conflict_state)))
     <> lookup (py "run") (capture_content conflict_state)
  /\ move_files blocked_state = (Raise ShutilError, blocked_state).
Proof. split; [reflexivity | split; [discriminate | reflexivity]]. Qed.

(** C7, amended. For a capture directory none of whose entries meets a
    directory of its name in the destination, and none of whose directories
    meets a file of its name: collection succeeds and moves every entry,
    files and directories as whole units, replacing the files of the same
    name; afterwards the capture directory is empty, the destination holds
    under each moved name what the capture directory held, and its other
    entries are as before. *)
Theorem move_files_collects (s : state) :
  listing (capture_content s) ->
  collectable (capture_content s) (output_content s) ->
  fst (move_files s) = Ok tt
  /\ capture_content (snd (move_files s)) = []
  /\ (forall n, lookup n (output_content (snd (move_files s)))
                = match lookup n (capture_content s) with
                  | Some x => Some x
                  | None => lookup n (output_content s)
                  end)
  /\ trace (snd (move_files s)) = trace s ++ map EMove (names (capture_content s)).
Proof.
  intros Hlist Hcoll. unfold move_files.
  apply (move_files_loop_collects (capture_content s) s eq_refl Hlist Hcoll).
Qed.

Definition collect_state : state :=
  {| output_content := [(py "old.log", File (bytes_of "old"));
                        (py "trace.pcang", File (bytes_of "stale"))];
     capture_content := [(py "trace.pcang", File (bytes_of "pcap"));
                         (py "run", Dir [(py "host.log", File (bytes_of "up"))])];
     trace := [] |}.

Lemma move_files_collects_witness :
  fst (move_files collect_state) = Ok tt
  /\ capture_content (snd (move_files collect_state)) = []
  /\ lookup (py "trace.pcang") (output_content (snd (move_files collect_state)))
     = Some (File (bytes_of "pcap")).
Proof.
  assert (Hlist : listing (capture_content collect_state)).
  { split.
    - repeat constructor; simpl; intros H;
        repeat (destruct H as [H | H]; [discriminate|]); exact H.
    - intros n Hn. simpl in Hn.
      repeat (destruct Hn as [<- | Hn]; [split; discriminate|]). contradiction. }
  assert (Hcoll : collectable (capture_content collect_state)
                    (output_content collect_state)).
  { intros n x Hin. simpl in Hin.
    repeat (destruct Hin as [Hin | Hin]; [injection Hin as <- <-; exact I || reflexivity|]).
    contradiction. }
  destruct (move_files_collects collect_state Hlist Hcoll) as [H1 [H2 [H3 _]]].
  split; [exact H1 | split; [exact H2 | apply (H3 (py "trace.pcang"))]].
Defined.

(** * Further properties *)

(** ** The identity as a file name *)

Lemma re_sub_unsafe_length (s : pystr) : List.length (re_sub_unsafe s) = List.length s.
Proof. unfold re_sub_unsafe. apply length_map. Qed.

(** X1. The substitution keeps the length: an identity is as long as the
    timestamp, the dash and the lower-cased first 50 characters of the name;
    with ASCII lower-casing that is at most 51 characters more than the
    timestamp. *)
Theorem get_task_id_length (str_lower : pystr -> pystr) (task : Task) (timestamp : pystr) :
  List.length (get_task_id str_lower task timestamp)
  = List.length timestamp + 1 + List.length (str_lower (firstn 50 (t_name task)))
  /\ List.length (get_task_id ascii_lower task timestamp) <= List.length timestamp + 51.
Proof.
  assert (H : forall f, List.length (get_task_id f task timestamp)
                        = List.length timestamp + 1 + List.length (f (firstn 50 (t_name task)))).
  { intros f. unfold get_task_id. rewrite re_sub_unsafe_length, !length_app. simpl. lia. }
  split; [apply H|]. rewrite H. unfold ascii_lower. rewrite length_map.
  pose proof (firstn_le_length 50 (t_name task)) as Hle.
  unfold pystr, char in *. lia.
Qed.

(** The task with another name. *)
Definition with_name (task : Task) (n : pystr) : Task :=
  {| t_name := n; t_command := t_command task; t_filter := t_filter task;
     t_configuration := t_configuration task |}.

(** X2. Characters of the name after the 50th do not reach the identity: two
    tasks whose names agree on the first 50 characters get the same identity
    for the same timestamp. *)
Theorem get_task_id_truncates
    (str_lower : pystr -> pystr) (task : Task) (more timestamp : pystr) :
  50 <= List.length (t_name task) ->
  get_task_id str_lower (with_name task (t_name task ++ more)) timestamp
  = get_task_id str_lower task timestamp.
Proof.
  intros Hlen. unfold get_task_id. simpl t_name. rewrite firstn_app.
  replace (50 - List.length (t_name task)) with 0 by lia.
  simpl firstn at 2. rewrite app_nil_r. reflexivity.
Qed.

Definition long_name_task : Task :=
  {| t_name := py "Scan of the whole laboratory network, first phase:";
     t_command := py "true"; t_filter := None; t_configuration := None |}.

Lemma get_task_id_truncates_witness :
  get_task_id ascii_lower
    (with_name long_name_task (t_name long_name_task ++ py " hosts 1 to 20"))
    (py "2020-01-02_03-04-05")
  = get_task_id ascii_lower long_name_task (py "2020-01-02_03-04-05").
Proof.
  apply (get_task_id_truncates ascii_lower long_name_task (py " hosts 1 to 20")
           (py "2020-01-02_03-04-05")).
  vm_compute. repeat constructor.
Defined.

Lemma get_task_id_dash (str_lower : pystr -> pystr) (task : Task) (timestamp : pystr) :
  In 45%N (get_task_id str_lower task timestamp).
Proof.
  unfold get_task_id, re_sub_unsafe. rewrite !map_app, !in_app_iff.
  right. left. simpl. left. reflexivity.
Qed.

(** X3. An identity is one path component: it is not empty, holds no slash,
    and is neither [.] nor [..]; so the directory and the files named after
    it lie directly in the directory they are created in. *)
Theorem get_task_id_path_component
    (str_lower : pystr -> pystr) (task : Task) (timestamp : pystr) :
  get_task_id str_lower task timestamp <> []
  /\ ~ In 47%N (get_task_id str_lower task timestamp)
  /\ get_task_id str_lower task timestamp <> py "."
  /\ get_task_id str_lower task timestamp <> py "..".
Proof.
  pose proof (get_task_id_dash str_lower task timestamp) as Hdash.
  repeat split.
  - intros H. rewrite H in Hdash. contradiction.
  - intros H. apply re_sub_unsafe_safe in H. discriminate.
  - intros H. rewrite H in Hdash. simpl in Hdash.
    repeat (destruct Hdash as [Hdash | Hdash]; [discriminate|]). contradiction.
  - intros H. rewrite H in Hdash. simpl in Hdash.
    repeat (destruct Hdash as [Hdash | Hdash]; [discriminate|]). contradiction.
Qed.

(** ** Preparing the directories *)


(** ** More on the remote host configurator *)

Lemma host_configure_quiet
    (str_lower : pystr -> pystr) (encode : pystr -> bytes) (w : world)
    (global_task : option Task) (host command timestamp username password : pystr)
    (s : state) :
  ssh w host command = SshStreams [] [] ->
  host_configure str_lower encode w global_task host command timestamp username password s
  = (Ok tt, {| output_content := output_content s;
               capture_content := capture_content s;
               trace := trace s ++ [ESshConnect host username password;
                                    ESshExec command; ESshClose] |}).
Proof.
  intros Hssh. unfold host_configure. rewrite Hssh. run_monad.
  rewrite <- !app_assoc. reflexivity.
Qed.

Lemma host_configure_unbound
    (str_lower : pystr -> pystr) (encode : pystr -> bytes) (w : world)
    (host command timestamp username password : pystr) (stdout stderr : bytes)
    (s : state) :
  ssh w host command = SshStreams stdout stderr ->
  truthy stdout || truthy stderr = true ->
  host_configure str_lower encode w None host command timestamp username password s
  = (Raise NameError,
     {| output_content := output_content s; capture_content := capture_content s;
        trace := trace s ++ [ESshConnect host username password; ESshExec command] |}).
Proof.
  intros Hssh Hout. unfold host_configure. rewrite Hssh. run_monad. rewrite Hout. simpl.
  rewrite <- !app_assoc. reflexivity.
Qed.

Lemma host_configure_fails
    (str_lower : pystr -> pystr) (encode : pystr -> bytes) (w : world)
    (global_task : option Task) (host command timestamp username password : pystr)
    (s : state) :
  ssh w host command = SshFails ->
  host_configure str_lower encode w global_task host command timestamp username password s
  = (Raise SSHException, s).
Proof. intros Hssh. unfold host_configure. rewrite Hssh. reflexivity. Qed.

Lemma truthy_quiet (a b : bytes) :
  truthy a || truthy b = false <-> a = [] /\ b = [].
Proof.
  destruct a, b; simpl; split; intros H; try discriminate; auto;
    destruct H; discriminate.
Qed.

(** The ways a call of the configurator ends, with the events it adds. *)
Lemma host_configure_cases
    (str_lower : pystr -> pystr) (encode : pystr -> bytes) (w : world)
    (global_task : option Task) (host command timestamp username password : pystr)
    (s : state) :
  let r := host_configure str_lower encode w global_task host command timestamp
             username password s in
  let opened := [ESshConnect host username password; ESshExec command] in
  (ssh w host command = SshStreams [] []
   /\ fst r = Ok tt /\ trace (snd r) = trace s ++ opened ++ [ESshClose])
  \/ (ssh w host command = SshFails
      /\ fst r = Raise SSHException /\ trace (snd r) = trace s)
  \/ (exists stdout stderr e,
        ssh w host command = SshStreams stdout stderr
        /\ truthy stdout || truthy stderr = true
        /\ fst r = Raise e /\ trace (snd r) = trace s ++ opened
        /\ (e = NameError /\ global_task = None
            \/ (e = TypeError \/ e = OSError) /\ global_task <> None)).
Proof.
  intros r opened. subst r opened.
  destruct (ssh w host command) as [|stdout stderr] eqn:Hssh.
  - right. left. rewrite host_configure_fails by assumption. auto.
  - destruct (truthy stdout || truthy stderr) eqn:Hout.
    + right. right. exists stdout, stderr.
      destruct global_task as [task|].
      * rewrite (host_configure_noisy _ _ _ _ _ _ _ _ _ _ _ _ Hssh Hout).
        destruct (fs_open_w _ _); simpl.
        -- exists TypeError. repeat split; auto. right. split; [auto | discriminate].
        -- exists OSError. repeat split; auto. right. split; [auto | discriminate].
      * rewrite (host_configure_unbound _ _ _ _ _ _ _ _ _ _ _ Hssh Hout). simpl.
        exists NameError. repeat split; auto.
    + apply truthy_quiet in Hout as [-> ->]. left.
      rewrite host_configure_quiet by assumption. simpl. auto.
Qed.

(** X5. Once the remote command has run, the configurator returns normally
    exactly when both streams are empty: any output ends it with an
    exception. *)
Theorem host_configure_returns_iff_quiet
    (str_lower : pystr -> pystr) (encode : pystr -> bytes) (w : world)
    (global_task : option Task) (host command timestamp username password : pystr)
    (stdout stderr : bytes) (s : state) :
  ssh w host command = SshStreams stdout stderr ->
  (fst (host_configure str_lower encode w global_task host command timestamp
          username password s) = Ok tt
   <-> stdout = [] /\ stderr = []).
Proof.
  intros Hssh.
  destruct (host_configure_cases str_lower encode w global_task host command timestamp
              username password s)
    as [[Hq [Hr _]] | [[Hf _] | [so [se [e [Hs [Hout [Hr _]]]]]]]].
  - rewrite Hssh in Hq. injection Hq as -> ->. tauto.
  - congruence.
  - rewrite Hssh in Hs. injection Hs as <- <-. rewrite Hr. split; [discriminate|].
    intros H. apply truthy_quiet in H. congruence.
Qed.

Lemma host_configure_returns_iff_quiet_witness :
  fst (host_configure ascii_lower no_encoding (sample_world [] [] [] []) (Some ping_test)
         (py "10.0.0.1") (py "true") (py "2020-01-02_03-04-05") (py "vagrant")
         (py "vagrant") empty_state)
  = Ok tt.
Proof.
  apply (host_configure_returns_iff_quiet ascii_lower no_encoding
           (sample_world [] [] [] []) (Some ping_test) (py "10.0.0.1") (py "true")
           (py "2020-01-02_03-04-05") (py "vagrant") (py "vagrant") [] [] empty_state
           eq_refl).
  split; reflexivity.
Defined.

(** X6. The session is closed only on the normal path: when the
    configurator returns, the last event is the closing of the session; when
    it raises, no closing is among the events it added, so a session that was
    opened stays open. *)
Theorem host_configure_closes_only_on_return
    (str_lower : pystr -> pystr) (encode : pystr -> bytes) (w : world)
    (global_task : option Task) (host command timestamp username password : pystr)
    (s : state) :
  let r := host_configure str_lower encode w global_task host command timestamp
             username password s in
  exists events,
    trace (snd r) = trace s ++ events
    /\ match fst r with
       | Ok _ => events = [ESshConnect host username password; ESshExec command; ESshClose]
       | Raise _ => ~ In ESshClose events
       end.
Proof.
  intros r. subst r.
  destruct (host_configure_cases str_lower encode w global_task host command timestamp
              username password s)
    as [[_ [Hr Ht]] | [[_ [Hr Ht]] | [so [se [e [_ [_ [Hr [Ht _]]]]]]]]];
    rewrite Hr, Ht.
  - eexists. split; [reflexivity|]. reflexivity.
  - exists []. rewrite app_nil_r. split; [reflexivity|]. intros [].
  - eexists. split; [reflexivity|]. simpl. intros [H | [H | []]]; discriminate.
Qed.

Lemma fs_open_w_other (x m : pystr) (path : list pystr) (d d' : dir) :
  fs_open_w (x :: path) d = Some d' -> m <> x -> lookup m d' = lookup m d.
Proof.
  destruct path as [|y path].
  - rewrite fs_open_w_file.
    destruct (lookup x d) as [[?|?]|]; simpl; try discriminate;
      intros H Hm; injection H as <-; apply lookup_put_other; exact Hm.
  - rewrite fs_open_w_sub.
    destruct (lookup x d) as [[?|sub]|]; simpl; try discriminate.
    destruct (fs_open_w (y :: path) sub); simpl; try discriminate.
    intros H Hm; injection H as <-. apply lookup_put_other. exact Hm.
Qed.

Lemma with_directory_other (dn m : pystr) (d : dir) :
  m <> dn -> lookup m (with_directory dn d) = lookup m d.
Proof.
  intros Hm. unfold with_directory. destruct (lookup dn d); [reflexivity|].
  rewrite lookup_app. destruct (lookup m d); [reflexivity|].
  simpl. rewrite str_eqb_neq by congruence. reflexivity.
Qed.

(** X7. Whatever happens, the configurator leaves the capture directory as
    it is, and in the output directory it touches nothing but the entry named
    after the identity of the module-level [task]; with no such task bound it
    touches nothing at all. *)
Theorem host_configure_frame
    (str_lower : pystr -> pystr) (encode : pystr -> bytes) (w : world)
    (global_task : option Task) (host command timestamp username password : pystr)
    (s : state) :
  let r := host_configure str_lower encode w global_task host command timestamp
             username password s in
  capture_content (snd r) = capture_content s
  /\ (forall m,
        (forall task, global_task = Some task ->
                      m <> get_task_id str_lower task timestamp) ->
        lookup m (output_content (snd r)) = lookup m (output_content s)).
Proof.
  intros r. subst r.
  destruct (ssh w host command) as [|stdout stderr] eqn:Hssh.
  - rewrite host_configure_fails by assumption. auto.
  - destruct (truthy stdout || truthy stderr) eqn:Hout.
    + destruct global_task as [task|].
      * rewrite (host_configure_noisy _ _ _ _ _ _ _ _ _ _ _ _ Hssh Hout).
        destruct (fs_open_w _ _) as [d'|] eqn:Hopen; simpl; split; auto;
          intros m Hm; specialize (Hm task eq_refl).
        -- rewrite (fs_open_w_other _ _ _ _ _ Hopen Hm).
           apply with_directory_other. exact Hm.
        -- apply with_directory_other. exact Hm.
      * rewrite (host_configure_unbound _ _ _ _ _ _ _ _ _ _ _ Hssh Hout). auto.
    + apply truthy_quiet in Hout as [-> ->].
      rewrite host_configure_quiet by assumption. auto.
Qed.

(** X8. When the name of the identity is taken by a regular file of the
    output directory, a remote command with output ends the configurator with
    an [OSError]: the name exists, so no directory is made, and the file
    cannot be opened below it.  The output directory is left as it was. *)
Theorem host_configure_identity_is_file
    (str_lower : pystr -> pystr) (encode : pystr -> bytes) (w : world) (task : Task)
    (host command timestamp username password : pystr) (stdout stderr data : bytes)
    (s : state) :
  ssh w host command = SshStreams stdout stderr ->
  truthy stdout || truthy stderr = true ->
  lookup (get_task_id str_lower task timestamp) (output_content s) = Some (File data) ->
  host_configure str_lower encode w (Some task) host command timestamp username password s
  = (Raise OSError,
     {| output_content := output_content s; capture_content := capture_content s;
        trace := trace s ++ [ESshConnect host username password; ESshExec command] |}).
Proof.
  intros Hssh Hout Hfile.
  rewrite (host_configure_noisy _ _ _ _ _ _ _ _ _ _ _ _ Hssh Hout).
  unfold with_directory. rewrite Hfile, fs_open_w_sub, Hfile. reflexivity.
Qed.

Definition identity_taken_state : state :=
  {| output_content := [(py "2020-01-02_03-04-05-ping_test", File (bytes_of "notes"))];
     capture_content := []; trace := [] |}.

Lemma host_configure_identity_is_file_witness :
  host_configure ascii_lower no_encoding (sample_world (bytes_of "up") [] [] [])
    (Some ping_test) (py "10.0.0.1") (py "uptime") (py "2020-01-02_03-04-05")
    (py "vagrant") (py "vagrant") identity_taken_state
  = (Raise OSError,
     {| output_content := output_content identity_taken_state;
        capture_content := [];
        trace := [ESshConnect (py "10.0.0.1") (py "vagrant") (py "vagrant");
                  ESshExec (py "uptime")] |}).
Proof.
  apply (host_configure_identity_is_file ascii_lower no_encoding
           (sample_world (bytes_of "up") [] [] []) ping_test (py "10.0.0.1") (py "uptime")
           (py "2020-01-02_03-04-05") (py "vagrant") (py "vagrant") (bytes_of "up") []
           (bytes_of "notes") identity_taken_state);
    reflexivity.
Defined.

(** ** More on the local command runner *)

Lemma run_command_split_fails
    (str_lower : pystr -> pystr) (encode : pystr -> bytes) (w : world) (task : Task)
    (timestamp : pystr) (s : state) :
  shlex_split (t_command task) = None ->
  run_command str_lower encode w task timestamp s = (Raise ValueError, s).
Proof. intros H. unfold run_command. rewrite H. reflexivity. Qed.

Lemma run_command_launch_fails
    (str_lower : pystr -> pystr) (encode : pystr -> bytes) (w : world) (task : Task)
    (timestamp : pystr) (argv : list pystr) (e : exn) (s : state) :
  shlex_split (t_command task) = Some argv ->
  local_process w argv = LaunchFails e ->
  run_command str_lower encode w task timestamp s = (Raise e, s).
Proof. intros H1 H2. unfold run_command. rewrite H1, H2. reflexivity. Qed.

(** X9. Once the command has run, the runner returns normally exactly when
    the command printed nothing on either stream, and this whatever the exit
    code, which is never looked at. *)
Theorem run_command_returns_iff_quiet
    (str_lower : pystr -> pystr) (encode : pystr -> bytes) (w : world) (task : Task)
    (timestamp : pystr) (argv : list pystr) (returncode : Z) (stdout stderr : bytes)
    (s : state) :
  shlex_split (t_command task) = Some argv ->
  local_process w argv = Exits returncode stdout stderr ->
  (fst (run_command str_lower encode w task timestamp s) = Ok tt
   <-> stdout = [] /\ stderr = []).
Proof.
  intros Hsplit Hproc.
  destruct (truthy stdout || truthy stderr) eqn:Hout.
  - rewrite (run_command_noisy _ _ _ _ _ _ _ _ _ _ Hsplit Hproc Hout).
    split.
    + destruct (fs_open_w _ _); simpl; discriminate.
    + intros H. apply truthy_quiet in H. congruence.
  - apply truthy_quiet in Hout as [-> ->].
    rewrite (run_command_quiet _ _ _ _ _ _ _ _ Hsplit Hproc). simpl. tauto.
Qed.

Lemma run_command_returns_iff_quiet_witness :
  fst (run_command ascii_lower no_encoding
         {| strftime := py "2020-01-02_03-04-05"; ssh := fun _ _ => SshFails;
            capture_tool := fun _ => None;
            local_process := fun _ => Exits 2 [] [];
            clock_sleep := fun _ => None |}
         ping_test (py "2020-01-02_03-04-05") empty_state)
  = Ok tt.
Proof.
  apply (run_command_returns_iff_quiet ascii_lower no_encoding
           {| strftime := py "2020-01-02_03-04-05"; ssh := fun _ _ => SshFails;
              capture_tool := fun _ => None;
              local_process := fun _ => Exits 2 [] [];
              clock_sleep := fun _ => None |}
           ping_test (py "2020-01-02_03-04-05") [py "ping"; py "-c1"; py "localhost"]
           2 [] [] empty_state eq_refl eq_refl).
  split; reflexivity.
Defined.

(** X10. Whatever happens, the runner leaves the capture directory as it
    is, and in the output directory it touches nothing but the entries named
    [<identity>.log] and [<identity>.err]. *)
Theorem run_command_frame
    (str_lower : pystr -> pystr) (encode : pystr -> bytes) (w : world) (task : Task)
    (timestamp : pystr) (s : state) :
  let r := run_command str_lower encode w task timestamp s in
  capture_content (snd r) = capture_content s
  /\ (forall m,
        m <> get_task_id str_lower task timestamp ++ py ".log" ->
        m <> get_task_id str_lower task timestamp ++ py ".err" ->
        lookup m (output_content (snd r)) = lookup m (output_content s)).
Proof.
  intros r. subst r.
  destruct (shlex_split (t_command task)) as [argv|] eqn:Hsplit.
  - destruct (local_process w argv) as [e|returncode stdout stderr] eqn:Hproc.
    + rewrite (run_command_launch_fails _ _ _ _ _ _ _ _ Hsplit Hproc). auto.
    + destruct (truthy stdout || truthy stderr) eqn:Hout.
      * rewrite (run_command_noisy _ _ _ _ _ _ _ _ _ _ Hsplit Hproc Hout).
        destruct (fs_open_w _ _) as [d'|] eqn:Hopen; simpl; split; auto.
        intros m Hlog Herr. apply (fs_open_w_other _ _ _ _ _ Hopen).
        unfold first_suffix. destruct (truthy stdout); assumption.
      * apply truthy_quiet in Hout as [-> ->].
        rewrite (run_command_quiet _ _ _ _ _ _ _ _ Hsplit Hproc). auto.
  - rewrite (run_command_split_fails _ _ _ _ _ _ Hsplit). auto.
Qed.

(** X11. When a directory of the output directory has the name of the log,
    a command that prints on standard output ends the runner with an
    [OSError] from [open], and the output directory is left as it was. *)
Theorem run_command_log_is_directory
    (str_lower : pystr -> pystr) (encode : pystr -> bytes) (w : world) (task : Task)
    (timestamp : pystr) (argv : list pystr) (returncode : Z) (stdout stderr : bytes)
    (entries : dir) (s : state) :
  shlex_split (t_command task) = Some argv ->
  local_process w argv = Exits returncode stdout stderr ->
  stdout <> [] ->
  lookup (get_task_id str_lower task timestamp ++ py ".log") (output_content s)
  = Some (Dir entries) ->
  run_command str_lower encode w task timestamp s
  = (Raise OSError,
     {| output_content := output_content s; capture_content := capture_content s;
        trace := trace s ++ [ECommandStart argv; ECommandExit returncode] |}).
Proof.
  intros Hsplit Hproc Hso Hdir.
  assert (Htr : truthy stdout = true) by (destruct stdout; [contradiction | reflexivity]).
  assert (Hout : truthy stdout || truthy stderr = true) by (rewrite Htr; reflexivity).
  rewrite (run_command_noisy _ _ _ _ _ _ _ _ _ _ Hsplit Hproc Hout).
  unfold first_suffix. rewrite Htr, fs_open_w_file, Hdir. reflexivity.
Qed.

Definition log_taken_state : state :=
  {| output_content := [(py "2020-01-02_03-04-05-ping_test.log", Dir [])];
     capture_content := []; trace := [] |}.

Lemma run_command_log_is_directory_witness :
  run_command ascii_lower no_encoding (sample_world [] [] (bytes_of "PING") [])
    ping_test (py "2020-01-02_03-04-05") log_taken_state
  = (Raise OSError,
     {| output_content := output_content log_taken_state;
        capture_content := [];
        trace := [ECommandStart [py "ping"; py "-c1"; py "localhost"]; ECommandExit 0] |}).
Proof.
  apply (run_command_log_is_directory ascii_lower no_encoding
           (sample_world [] [] (bytes_of "PING") []) ping_test (py "2020-01-02_03-04-05")
           [py "ping"; py "-c1"; py "localhost"] 0 (bytes_of "PING") [] []
           log_taken_state);
    [reflexivity | reflexivity | discriminate | reflexivity].
Defined.

(** ** More on command lines *)

(** [' '.join(words)] *)
Fixpoint join_spaces (words : list pystr) : pystr :=
  match words with
  | [] => []
  | [w] => w
  | w :: rest => w ++ 32%N :: join_spaces rest
  end.

Lemma lex_eof_frame (tokens : list pystr) (l : lexer) :
  lex_eof (with_tokens tokens l)
  = match lex_eof l with Some ts => Some (tokens ++ ts) | None => None end.
Proof.
  unfold lex_eof. simpl l_state.
  destruct (l_state l); try reflexivity; rewrite lex_break_frame; reflexivity.
Qed.

Lemma shlex_split_join (words : list pystr) :
  Forall (fun w => plain_word w = true) words ->
  shlex_split (join_spaces words) = Some words.
Proof.
  induction words as [|w rest IH]; intros Hall; [reflexivity|].
  inversion Hall as [|? ? Hw Hrest]; subst.
  unfold shlex_split in *. destruct rest as [|w2 rest].
  - simpl join_spaces. unfold lex_init. rewrite lex_space_plain by assumption.
    unfold lex_eof, lex_break. simpl. destruct w; [discriminate | reflexivity].
  - change (join_spaces (w :: w2 :: rest)) with (w ++ 32%N :: join_spaces (w2 :: rest)).
    rewrite lex_run_app. unfold lex_init at 1. rewrite lex_space_plain by assumption.
    rewrite lex_word_space by (apply plain_word_nonempty; assumption).
    rewrite lex_eof_frame, (IH Hrest). reflexivity.
Qed.

(** X12. A command made of plain words (no blank, quote or backslash in
    them) separated by single spaces is started with exactly these words as
    its arguments, whatever it then prints. *)
Theorem run_command_plain_words
    (str_lower : pystr -> pystr) (encode : pystr -> bytes) (w : world) (task : Task)
    (timestamp : pystr) (words : list pystr) (returncode : Z) (stdout stderr : bytes)
    (s : state) :
  t_command task = join_spaces words ->
  Forall (fun x => plain_word x = true) words ->
  local_process w words = Exits returncode stdout stderr ->
  shlex_split (t_command task) = Some words
  /\ trace (snd (run_command str_lower encode w task timestamp s))
     = trace s ++ [ECommandStart words; ECommandExit returncode].
Proof.
  intros Hcmd Hplain Hproc.
  assert (Hsplit : shlex_split (t_command task) = Some words)
    by (rewrite Hcmd; apply shlex_split_join; assumption).
  split; [exact Hsplit|].
  destruct (truthy stdout || truthy stderr) eqn:Hout.
  - rewrite (run_command_noisy _ _ _ _ _ _ _ _ _ _ Hsplit Hproc Hout).
    destruct (fs_open_w _ _); reflexivity.
  - apply truthy_quiet in Hout as [-> ->].
    rewrite (run_command_quiet _ _ _ _ _ _ _ _ Hsplit Hproc). reflexivity.
Qed.

Lemma run_command_plain_words_witness :
  trace (snd (run_command ascii_lower no_encoding (sample_world [] [] (bytes_of "PING") [])
                ping_test (py "2020-01-02_03-04-05") empty_state))
  = [ECommandStart [py "ping"; py "-c1"; py "localhost"]; ECommandExit 0].
Proof.
  apply (run_command_plain_words ascii_lower no_encoding
           (sample_world [] [] (bytes_of "PING") []) ping_test (py "2020-01-02_03-04-05")
           [py "ping"; py "-c1"; py "localhost"] 0 (bytes_of "PING") [] empty_state).
  - reflexivity.
  - repeat constructor.
  - reflexivity.
Defined.

Lemma tshark_command_head
    (str_lower : pystr -> pystr) (task : Task)
    (network_interface capture_directory timestamp : pystr) :
  exists rest,
    tshark_command str_lower task network_interface capture_directory timestamp
    = py "tshark -i " ++ rest.
Proof.
  unfold tshark_command, tshark_base. destruct (t_filter task).
  - eexists. rewrite <- ?app_assoc. reflexivity.
  - eexists. rewrite <- ?app_assoc. reflexivity.
Qed.

(** X13. Whatever the interface, the name and the filter hold, when the
    command line can be split the program that is started is [tshark] and its
    first option is [-i]: the text that is inserted can add or change
    arguments, but not the program. *)
Theorem tshark_argv_program
    (str_lower : pystr -> pystr) (task : Task)
    (network_interface capture_directory timestamp : pystr) (argv : list pystr) :
  tshark_argv str_lower task network_interface capture_directory timestamp = Some argv ->
  exists rest, argv = py "tshark" :: py "-i" :: rest.
Proof.
  unfold tshark_argv, shlex_split.
  destruct (tshark_command_head str_lower task network_interface capture_directory
              timestamp) as [tail ->].
  rewrite lex_run_app.
  change (lex_run lex_init (py "tshark -i "))
    with (with_tokens [py "tshark"; py "-i"] lex_init).
  rewrite lex_run_frame, lex_eof_frame.
  destruct (lex_eof (lex_run lex_init tail)) as [ts|]; [|discriminate].
  intros H. injection H as <-. exists ts. reflexivity.
Qed.

Lemma tshark_argv_program_witness :
  exists rest,
    [py "tshark"; py "-i"; py "lo"; py "-w"; py "x"; py "-q"; py "-w";
     py "/tmp/capture/2020-01-02_03-04-05-ping_test.pcang"; py "-F"; py "pcapng"]
    = py "tshark" :: py "-i" :: rest.
Proof.
  apply (tshark_argv_program ascii_lower ping_test (py "lo -w x") tmp_capture
           (py "2020-01-02_03-04-05")).
  reflexivity.
Defined.



(** ** More on the artifact collector *)

Lemma lookup_In (n : pystr) (x : node) (d : dir) :
  NoDup (names d) -> In (n, x) d -> lookup n d = Some x.
Proof.
  induction d as [|[k u] d IH]; simpl; [tauto|].
  intros Hnd [Heq | Hin].
  - injection Heq as -> ->. rewrite str_eqb_refl. reflexivity.
  - inversion Hnd as [|? ? Hk Hnd']; subst.
    destruct (str_eqb k n) eqn:E.
    + apply str_eqb_eq in E. subst k. exfalso. apply Hk.
      change n with (fst (n, x)). apply in_map. exact Hin.
    + auto.
Qed.

Lemma move_files_loop_step (n : pystr) (x : node) (items : dir) (s : state) :
  move_files_loop ((n, x) :: items) s
  = if str_eqb n (py ".") || str_eqb n (py "..") then move_files_loop items s
    else match shutil_move (n, x) (output_content s) with
         | Ok d => move_files_loop items
                     {| output_content := d;
                        capture_content := remove n (capture_content s);
                        trace := trace s ++ [EMove n] |}
         | Raise e => (Raise e, s)
         end.
Proof.
  unfold move_files_loop; fold move_files_loop.
  destruct (str_eqb n (py ".") || str_eqb n (py "..")); [reflexivity|].
  unfold bind. destruct (shutil_move (n, x) (output_content s)); reflexivity.
Qed.

Lemma shutil_move_other (m n : pystr) (x : node) (d d' : dir) :
  shutil_move (m, x) d = Ok d' -> n <> m -> lookup n d' = lookup n d.
Proof.
  unfold shutil_move. intros H Hn.
  destruct (lookup m d) as [[data|sub]|] eqn:E.
  - destruct x; [|discriminate]. injection H as <-. apply lookup_put_other. exact Hn.
  - destruct (lookup m sub); [discriminate|]. injection H as <-.
    apply lookup_put_other. exact Hn.
  - injection H as <-. rewrite lookup_app. destruct (lookup n d); [reflexivity|].
    simpl. rewrite str_eqb_neq by congruence. reflexivity.
Qed.

Lemma shutil_move_holds (m : pystr) (y : node) (d d' : dir) :
  shutil_move (m, y) d = Ok d' ->
  lookup m d' = Some y
  \/ exists sub, lookup m d' = Some (Dir sub) /\ lookup m sub = Some y.
Proof.
  unfold shutil_move. intros H.
  destruct (lookup m d) as [[data|sub]|] eqn:E.
  - destruct y; [|discriminate]. injection H as <-. left. apply lookup_put_same.
  - destruct (lookup m sub) eqn:Es; [discriminate|]. injection H as <-. right.
    exists (sub ++ [(m, y)]). split; [apply lookup_put_same|].
    rewrite lookup_app, Es. simpl. rewrite str_eqb_refl. reflexivity.
  - injection H as <-. left. rewrite lookup_app, E. simpl. rewrite str_eqb_refl.
    reflexivity.
Qed.

Lemma move_files_loop_frame (items : dir) (s : state) (n : pystr) :
  ~ In n (names items) ->
  lookup n (output_content (snd (move_files_loop items s))) = lookup n (output_content s).
Proof.
  revert s. induction items as [|[m x] items IH]; intros s Hn; [reflexivity|].
  simpl in Hn. rewrite move_files_loop_step.
  destruct (str_eqb m (py ".") || str_eqb m (py "..")).
  - apply IH. tauto.
  - destruct (shutil_move (m, x) (output_content s)) as [d|e] eqn:Hmove; [|reflexivity].
    rewrite IH by tauto. simpl.
    apply (shutil_move_other _ _ _ _ _ Hmove). intros ->. tauto.
Qed.

(** X15. Whatever the outcome of the collection, an entry of the output
    directory whose name is not the name of an entry of the capture directory
    is left as it is. *)
Theorem move_files_frame (s : state) (n : pystr) :
  ~ In n (names (capture_content s)) ->
  lookup n (output_content (snd (move_files s))) = lookup n (output_content s).
Proof. intros Hn. unfold move_files. apply move_files_loop_frame. exact Hn. Qed.

Lemma move_files_frame_witness :
  lookup (py "old.log") (output_content (snd (move_files collect_state)))
  = Some (File (bytes_of "old")).
Proof.
  rewrite (move_files_frame collect_state (py "old.log")).
  - reflexivity.
  - simpl. intros H. repeat (destruct H as [H | H]; [discriminate|]). exact H.
Defined.

Lemma move_files_loop_conserves (items : dir) (s : state) :
  capture_content s = items ->
  listing items ->
  forall n x, In (n, x) items ->
    let s' := snd (move_files_loop items s) in
    lookup n (capture_content s') = Some x
    \/ lookup n (output_content s') = Some x
    \/ exists sub, lookup n (output_content s') = Some (Dir sub) /\ lookup n sub = Some x.
Proof.
  revert s. induction items as [|[m y] items IH]; intros s Hcap [Hnd Hdots] n x Hin;
    [contradiction|].
  simpl in Hnd. inversion Hnd as [|? ? Hm Hnd']; subst.
  destruct (Hdots m (or_introl eq_refl)) as [Hdot Hdotdot].
  cbv zeta. rewrite move_files_loop_step.
  rewrite (str_eqb_neq _ _ Hdot), (str_eqb_neq _ _ Hdotdot). cbn [orb].
  destruct (shutil_move (m, y) (output_content s)) as [d|e] eqn:Hmove.
  - set (s1 := {| output_content := d;
                  capture_content := remove m (capture_content s);
                  trace := trace s ++ [EMove m] |}).
    assert (Hcap1 : capture_content s1 = items).
    { unfold s1. simpl. rewrite Hcap. simpl. rewrite str_eqb_refl.
      apply remove_not_in. exact Hm. }
    assert (Hlist1 : listing items).
    { split; [exact Hnd'|]. intros k Hk. apply Hdots. right. exact Hk. }
    destruct Hin as [Heq | Hin].
    + injection Heq as -> ->. right.
      rewrite (move_files_loop_frame items s1 n Hm). unfold s1. simpl.
      apply (shutil_move_holds _ _ _ _ Hmove).
    + apply (IH s1 Hcap1 Hlist1 n x Hin).
  - simpl. left. rewrite Hcap. apply lookup_In; [exact Hnd | exact Hin].
Qed.

(** X16. The collection loses no entry of the capture directory, whether it
    ends normally or with an exception: each entry is afterwards still in the
    capture directory, or in the output directory under its name, or inside
    the directory of that name in the output directory. *)
Theorem move_files_conserves (s : state) (n : pystr) (x : node) :
  listing (capture_content s) ->
  In (n, x) (capture_content s) ->
  let s' := snd (move_files s) in
  lookup n (capture_content s') = Some x
  \/ lookup n (output_content s') = Some x
  \/ exists sub, lookup n (output_content s') = Some (Dir sub) /\ lookup n sub = Some x.
Proof.
  intros Hlist Hin. unfold move_files.
  apply (move_files_loop_conserves (capture_content s) s eq_refl Hlist n x Hin).
Qed.

Lemma blocked_state_listing : listing (capture_content blocked_state).
Proof.
  split.
  - repeat constructor; simpl; intros H;
      repeat (destruct H as [H | H]; [discriminate|]); exact H.
  - intros n Hn. simpl in Hn.
    repeat (destruct Hn as [<- | Hn]; [split; discriminate|]). contradiction.
Qed.

Lemma move_files_conserves_witness :
  let s' := snd (move_files blocked_state) in
  let x := File (bytes_of "pcap") in
  lookup (py "trace.pcang") (capture_content s') = Some x
  \/ lookup (py "trace.pcang") (output_content s') = Some x
  \/ exists sub, lookup (py "trace.pcang") (output_content s') = Some (Dir sub)
                 /\ lookup (py "trace.pcang") sub = Some x.
Proof.
  apply (move_files_conserves blocked_state (py "trace.pcang") (File (bytes_of "pcap"))
           blocked_state_listing).
  simpl. right. left. reflexivity.
Defined.

(** ** More on the orchestrator *)

(** The events of one host configuration that returns. *)
Definition session (args : Args) (hc : HostConfigEntry) : list event :=
  [ESshConnect (h_ip hc) (username args) (password args); ESshExec (h_command hc); ESshClose].

Lemma for_each_quiet
    (str_lower : pystr -> pystr) (encode : pystr -> bytes) (w : world)
    (global_task : option Task) (args : Args) (hosts : list HostConfigEntry) (s : state) :
  Forall (fun hc => ssh w (h_ip hc) (h_command hc) = SshStreams [] []) hosts ->
  for_each hosts (fun hc =>
    host_configure str_lower encode w global_task (h_ip hc) (h_command hc)
      (strftime w) (username args) (password args)) s
  = (Ok tt, {| output_content := output_content s; capture_content := capture_content s;
               trace := trace s ++ flat_map (session args) hosts |}).
Proof.
  revert s. induction hosts as [|hc hosts IH]; intros s Hall.
  - simpl. rewrite app_nil_r. destruct s; reflexivity.
  - inversion Hall as [|? ? Hhc Hrest]; subst.
    simpl for_each. unfold bind. rewrite host_configure_quiet by assumption.
    rewrite (IH _ Hrest). simpl. rewrite <- app_assoc. reflexivity.
Qed.

(** X17. When every remote command of a task prints nothing, the hosts are
    configured one after the other in the order of the configuration, each
    session being closed before the next is opened; both directories are left
    as they are, and this whether or not a module-level [task] is bound. *)
Theorem configure_hosts_quiet
    (str_lower : pystr -> pystr) (encode : pystr -> bytes) (w : world)
    (global_task : option Task) (task : Task) (args : Args)
    (hosts : list HostConfigEntry) (s : state) :
  t_configuration task = Some hosts ->
  Forall (fun hc => ssh w (h_ip hc) (h_command hc) = SshStreams [] []) hosts ->
  configure_hosts str_lower encode w global_task task args s
  = (Ok tt, {| output_content := output_content s; capture_content := capture_content s;
               trace := trace s ++ flat_map (session args) hosts |}).
Proof.
  intros Hconf Hall. unfold configure_hosts. rewrite Hconf.
  apply for_each_quiet. exact Hall.
Qed.

Definition second_host : HostConfigEntry :=
  {| h_ip := py "10.0.0.2"; h_command := py "true" |}.

Definition two_hosts_task : Task :=
  {| t_name := py "Ping Test"; t_command := py "ping -c1 localhost";
     t_filter := None; t_configuration := Some [sample_host; second_host] |}.

Lemma configure_hosts_quiet_witness :
  configure_hosts ascii_lower no_encoding (sample_world [] [] [] []) None two_hosts_task
    sample_args empty_state
  = (Ok tt,
     {| output_content := []; capture_content := [];
        trace := [ESshConnect (py "10.0.0.1") (py "vagrant") (py "vagrant");
                  ESshExec (py "uptime"); ESshClose;
                  ESshConnect (py "10.0.0.2") (py "vagrant") (py "vagrant");
                  ESshExec (py "true"); ESshClose] |}).
Proof.
  apply (configure_hosts_quiet ascii_lower no_encoding (sample_world [] [] [] []) None
           two_hosts_task sample_args [sample_host; second_host] empty_state).
  - reflexivity.
  - repeat constructor.
Defined.

Lemma for_each_never_raises {A} (e : exn) (body : A -> M unit) (l : list A) (s : state) :
  (forall x s', fst (body x s') <> Raise e) ->
  fst (for_each l body s) <> Raise e.
Proof.
  intros Hbody. revert s. induction l as [|x l IH]; intros s; simpl; [discriminate|].
  unfold bind. destruct (body x s) as [[[]|e'] s'] eqn:Hx.
  - apply IH.
  - simpl. intros H. apply (Hbody x s). rewrite Hx. exact H.
Qed.

(** X18. With the module-level [task] bound, as it is in the loop of the
    main program, the host configurations of a task never end with
    [NameError], whatever the remote commands print. *)
Theorem configure_hosts_bound_no_NameError
    (str_lower : pystr -> pystr) (encode : pystr -> bytes) (w : world)
    (bound task : Task) (args : Args) (s : state) :
  fst (configure_hosts str_lower encode w (Some bound) task args s) <> Raise NameError.
Proof.
  unfold configure_hosts. destruct (t_configuration task) as [hosts|]; [|discriminate].
  apply for_each_never_raises. intros hc s'.
  destruct (host_configure_cases str_lower encode w (Some bound) (h_ip hc) (h_command hc)
              (strftime w) (username args) (password args) s')
    as [[_ [Hr _]] | [[_ [Hr _]] | [so [se [e [_ [_ [Hr [_ He]]]]]]]]];
    rewrite Hr; try discriminate.
  destruct He as [[_ Hnone] | [[-> | ->] _]]; discriminate.
Qed.

(** X19. A negative delay ends the task after the command: [time.sleep]
    raises [ValueError] for a negative length within the range of its clock
    and [OverflowError] below that range.  For a task whose command prints
    nothing, the termination of the capture is then never requested and
    nothing is collected. *)
Theorem process_creator_task_negative_delay
    (str_lower : pystr -> pystr) (encode : pystr -> bytes) (w : world)
    (global_task : option Task) (task : Task) (capture_directory : pystr) (args : Args)
    (capture_argv argv : list pystr) (effect : dir -> dir) (returncode : Z) (s : state) :
  t_configuration task = None ->
  tshark_argv str_lower task (interface args) capture_directory (strftime w)
  = Some capture_argv ->
  capture_tool w capture_argv = Some effect ->
  shlex_split (t_command task) = Some argv ->
  local_process w argv = Exits returncode [] [] ->
  (delay args < 0)%Z ->
  process_creator_task str_lower encode w global_task task capture_directory args s
  = (Raise (if (delay args <? - sleep_max)%Z then OverflowError else ValueError),
     {| output_content := output_content s;
        capture_content := effect (capture_content s);
        trace := trace s ++ [ECaptureStart capture_argv; ECommandStart argv;
                             ECommandExit returncode] |}).
Proof.
  intros Hconf Hargv Htool Hsplit Hproc Hdelay.
  rewrite process_creator_task_steps. unfold configure_hosts. rewrite Hconf.
  unfold bind at 1. unfold ret at 1. unfold bind at 1.
  rewrite (start_tshark_ok _ _ _ _ _ _ _ _ _ Hargv Htool).
  unfold bind at 1.
  rewrite (run_command_quiet _ _ _ _ _ _ _ _ Hsplit Hproc).
  unfold sleep.
  replace (sleep_max <? delay args)%Z with false
    by (symmetry; apply Z.ltb_ge; unfold sleep_max; lia).
  replace (delay args <? 0)%Z with true by (symmetry; apply Z.ltb_lt; lia).
  rewrite orb_false_r.
  destruct (delay args <? - sleep_max)%Z;
    unfold bind, raise; simpl; rewrite <- !app_assoc; reflexivity.
Qed.

Definition hasty_args : Args :=
  {| interface := py "enp0s8"; delay := -1; username := py "vagrant";
     password := py "vagrant" |}.

Lemma process_creator_task_negative_delay_witness :
  process_creator_task ascii_lower no_encoding (sample_world [] [] [] []) (Some ping_test)
    ping_test tmp_capture hasty_args empty_state
  = (Raise ValueError,
     {| output_content := []; capture_content := [];
        trace := [ECaptureStart [py "tshark"; py "-i"; py "enp0s8"; py "-q"; py "-w";
                                 py "/tmp/capture/2020-01-02_03-04-05-ping_test.pcang";
                                 py "-F"; py "pcapng"];
                  ECommandStart [py "ping"; py "-c1"; py "localhost"];
                  ECommandExit 0] |}).
Proof.
  apply (process_creator_task_negative_delay ascii_lower no_encoding
           (sample_world [] [] [] []) (Some ping_test) ping_test tmp_capture hasty_args
           [py "tshark"; py "-i"; py "enp0s8"; py "-q"; py "-w";
            py "/tmp/capture/2020-01-02_03-04-05-ping_test.pcang"; py "-F"; py "pcapng"]
           [py "ping"; py "-c1"; py "localhost"] (fun d => d) 0 empty_state);
    reflexivity.
Defined.

(** X20. A task without host configuration whose command prints nothing,
    with a delay that is not negative, fits the clock and is granted by the
    system, and a capture directory that can be collected, is processed to
    the end: the capture is started, the command
    runs, the delay is slept, the termination of the capture is requested,
    and every entry of the capture directory is moved; afterwards the capture
    directory is empty and the output directory holds what the capture tool
    wrote, beside its other entries. *)
Theorem process_creator_task_completes
    (str_lower : pystr -> pystr) (encode : pystr -> bytes) (w : world)
    (global_task : option Task) (task : Task) (capture_directory : pystr) (args : Args)
    (capture_argv argv : list pystr) (effect : dir -> dir) (returncode : Z) (s : state) :
  t_configuration task = None ->
  tshark_argv str_lower task (interface args) capture_directory (strftime w)
  = Some capture_argv ->
  capture_tool w capture_argv = Some effect ->
  shlex_split (t_command task) = Some argv ->
  local_process w argv = Exits returncode [] [] ->
  (0 <= delay args <= sleep_max)%Z ->
  clock_sleep w (delay args) = None ->
  listing (effect (capture_content s)) ->
  collectable (effect (capture_content s)) (output_content s) ->
  let r := process_creator_task str_lower encode w global_task task capture_directory
             args s in
  fst r = Ok tt
  /\ capture_content (snd r) = []
  /\ (forall n, lookup n (output_content (snd r))
                = match lookup n (effect (capture_content s)) with
                  | Some x => Some x
                  | None => lookup n (output_content s)
                  end)
  /\ trace (snd r)
     = trace s ++ [ECaptureStart capture_argv; ECommandStart argv; ECommandExit returncode;
                   ESleep (delay args); ECaptureTerminate capture_argv]
         ++ map EMove (names (effect (capture_content s))).
Proof.
  intros Hconf Hargv Htool Hsplit Hproc Hdelay Hclock Hlist Hcoll r. subst r.
  rewrite (process_creator_task_quiet str_lower encode w global_task task capture_directory
             args capture_argv argv effect returncode s
             Hconf Hargv Htool Hsplit Hproc Hdelay Hclock).
  unfold move_files. cbn [capture_content].
  match goal with
  | |- context [move_files_loop ?items ?s0] =>
      destruct (move_files_loop_collects items s0 eq_refl Hlist Hcoll)
        as [H1 [H2 [H3 H4]]]
  end.
  repeat split; try assumption.
  rewrite H4. simpl. rewrite <- app_assoc. reflexivity.
Qed.

(** A world whose capture tool writes one capture file, and whose command
    fails without printing anything. *)
Definition capture_written (d : dir) : dir :=
  d ++ [(py "2020-01-02_03-04-05-ping_test.pcang", File (bytes_of "pcap"))].

Definition writing_world : world :=
  {| strftime := py "2020-01-02_03-04-05";
     ssh := fun _ _ => SshFails;
     capture_tool := fun _ => Some capture_written;
     local_process := fun _ => Exits 1 [] [];
     clock_sleep := fun _ => None |}.

Lemma process_creator_task_completes_witness :
  let r := process_creator_task ascii_lower no_encoding writing_world (Some ping_test)
             ping_test tmp_capture sample_args empty_state in
  fst r = Ok tt
  /\ capture_content (snd r) = []
  /\ lookup (py "2020-01-02_03-04-05-ping_test.pcang") (output_content (snd r))
     = Some (File (bytes_of "pcap")).
Proof.
  assert (Hlist : listing (capture_written (capture_content empty_state))).
  { split.
    - repeat constructor. simpl. intros H. exact H.
    - intros n Hn. simpl in Hn.
      repeat (destruct Hn as [<- | Hn]; [split; discriminate|]). contradiction. }
  assert (Hcoll : collectable (capture_written (capture_content empty_state))
                    (output_content empty_state)).
  { intros n x Hin. exact I. }
  assert (Hdelay : (0 <= delay sample_args <= sleep_max)%Z)
    by (unfold sleep_max; simpl; lia).
  destruct (process_creator_task_completes ascii_lower no_encoding writing_world
              (Some ping_test) ping_test tmp_capture sample_args
              [py "tshark"; py "-i"; py "enp0s8"; py "-q"; py "-w";
               py "/tmp/capture/2020-01-02_03-04-05-ping_test.pcang"; py "-F"; py "pcapng"]
              [py "ping"; py "-c1"; py "localhost"] capture_written
              1 empty_state eq_refl eq_refl eq_refl eq_refl eq_refl Hdelay eq_refl
              Hlist Hcoll)
    as [H1 [H2 [H3 _]]].
  split; [exact H1 | split; [exact H2 | apply (H3 (py "2020-01-02_03-04-05-ping_test.pcang"))]].
Defined.

(** The events of the SSH sessions. *)
Definition is_ssh_event (e : event) : Prop :=
  match e with
  | ESshConnect _ _ _ | ESshExec _ | ESshClose => True
  | _ => False
  end.

Lemma for_each_host_events
    (str_lower : pystr -> pystr) (encode : pystr -> bytes) (w : world)
    (global_task : option Task) (args : Args) (hosts : list HostConfigEntry) (s : state) :
  exists events,
    trace (snd (for_each hosts (fun hc =>
                  host_configure str_lower encode w global_task (h_ip hc) (h_command hc)
                    (strftime w) (username args) (password args)) s))
    = trace s ++ events
    /\ Forall is_ssh_event events.
Proof.
  revert s. induction hosts as [|hc hosts IH]; intros s.
  - exists []. simpl. rewrite app_nil_r. auto.
  - simpl for_each. unfold bind.
    destruct (host_configure_cases str_lower encode w global_task (h_ip hc) (h_command hc)
                (strftime w) (username args) (password args) s)
      as [[_ [Hr Ht]] | [[_ [Hr Ht]] | [so [se [e [_ [_ [Hr [Ht _]]]]]]]]];
      destruct (host_configure str_lower encode w global_task (h_ip hc) (h_command hc)
                  (strftime w) (username args) (password args) s) as [[[]|e'] s1];
      simpl in Hr, Ht; try discriminate.
    + destruct (IH s1) as [events [He Hall]]. rewrite He, Ht.
      eexists. rewrite <- app_assoc. split; [reflexivity|].
      apply Forall_app. split; [|exact Hall]. repeat constructor.
    + exists []. simpl. rewrite app_nil_r. auto.
    + eexists. simpl. split; [exact Ht|]. repeat constructor.
Qed.

Lemma configure_hosts_events
    (str_lower : pystr -> pystr) (encode : pystr -> bytes) (w : world)
    (global_task : option Task) (task : Task) (args : Args) (s : state) :
  exists events,
    trace (snd (configure_hosts str_lower encode w global_task task args s))
    = trace s ++ events
    /\ Forall is_ssh_event events.
Proof.
  unfold configure_hosts. destruct (t_configuration task) as [hosts|].
  - apply for_each_host_events.
  - exists []. simpl. rewrite app_nil_r. auto.
Qed.

Lemma move_files_loop_events (items : dir) (s : state) :
  exists moved,
    trace (snd (move_files_loop items s)) = trace s ++ map EMove moved.
Proof.
  revert s. induction items as [|[n x] items IH]; intros s.
  - exists []. simpl. rewrite app_nil_r. reflexivity.
  - rewrite move_files_loop_step.
    destruct (str_eqb n (py ".") || str_eqb n (py "..")); [apply IH|].
    destruct (shutil_move (n, x) (output_content s)) as [d|e].
    + match goal with
      | |- context [move_files_loop items ?s1] => destruct (IH s1) as [moved Hm]
      end.
      exists (n :: moved). rewrite Hm. simpl. rewrite <- app_assoc. reflexivity.
    + exists []. simpl. rewrite app_nil_r. reflexivity.
Qed.

Lemma run_command_events
    (str_lower : pystr -> pystr) (encode : pystr -> bytes) (w : world) (task : Task)
    (timestamp : pystr) (s : state) :
  let r := run_command str_lower encode w task timestamp s in
  (fst r <> Ok tt /\ trace (snd r) = trace s)
  \/ exists argv returncode,
       trace (snd r) = trace s ++ [ECommandStart argv; ECommandExit returncode].
Proof.
  intros r. subst r.
  destruct (shlex_split (t_command task)) as [argv|] eqn:Hsplit.
  - destruct (local_process w argv) as [e|returncode stdout stderr] eqn:Hproc.
    + left. rewrite (run_command_launch_fails _ _ _ _ _ _ _ _ Hsplit Hproc).
      split; [discriminate | reflexivity].
    + right. exists argv, returncode.
      destruct (truthy stdout || truthy stderr) eqn:Hout.
      * rewrite (run_command_noisy _ _ _ _ _ _ _ _ _ _ Hsplit Hproc Hout).
        destruct (fs_open_w _ _); reflexivity.
      * apply truthy_quiet in Hout as [-> ->].
        rewrite (run_command_quiet _ _ _ _ _ _ _ _ Hsplit Hproc). reflexivity.
  - left. rewrite (run_command_split_fails _ _ _ _ _ _ Hsplit).
    split; [discriminate | reflexivity].
Qed.

(** X21. In every run of [process_creator_task], ended normally or by an
    exception, the events come in one order: first the SSH sessions of the
    host configurations; then nothing more, or the start of the capture
    alone, or the start of the capture and the command from start to exit,
    or all of these followed by the sleep of the configured delay, the
    termination of the capture that was started, and moves.  So the command
    never starts before the capture, the termination is never requested
    before the command has exited and the delay has been slept, and nothing
    is moved before the termination. *)
Theorem process_creator_task_order
    (str_lower : pystr -> pystr) (encode : pystr -> bytes) (w : world)
    (global_task : option Task) (task : Task) (capture_directory : pystr) (args : Args)
    (s : state) :
  exists sessions steps,
    trace (snd (process_creator_task str_lower encode w global_task task
                  capture_directory args s))
    = trace s ++ sessions ++ steps
    /\ Forall is_ssh_event sessions
    /\ (steps = []
        \/ (exists capture_argv, steps = [ECaptureStart capture_argv])
        \/ (exists capture_argv argv returncode,
              steps = [ECaptureStart capture_argv; ECommandStart argv;
                       ECommandExit returncode])
        \/ (exists capture_argv argv returncode moved,
              steps = [ECaptureStart capture_argv; ECommandStart argv;
                       ECommandExit returncode; ESleep (delay args);
                       ECaptureTerminate capture_argv] ++ map EMove moved)).
Proof.
  rewrite process_creator_task_steps.
  destruct (configure_hosts_events str_lower encode w global_task task args s)
    as [sessions [Hs Hall]].
  exists sessions. unfold bind at 1.
  destruct (configure_hosts str_lower encode w global_task task args s) as [[[]|e] s0];
    simpl in Hs.
  2: { exists []. rewrite app_nil_r. simpl. auto. }
  unfold bind at 1. unfold start_tshark.
  destruct (tshark_argv str_lower task (interface args) capture_directory (strftime w))
    as [capture_argv|].
  2: { exists []. rewrite app_nil_r. simpl. auto. }
  destruct (capture_tool w capture_argv) as [effect|].
  2: { exists []. rewrite app_nil_r. simpl. auto. }
  set (s1 := {| output_content := output_content s0;
                capture_content := effect (capture_content s0);
                trace := trace s0 ++ [ECaptureStart capture_argv] |}).
  unfold bind at 1.
  destruct (run_command_events str_lower encode w task (strftime w) s1)
    as [[Hfail Ht] | [argv [returncode Ht]]];
    destruct (run_command str_lower encode w task (strftime w) s1) as [[[]|e] s2];
    simpl in Ht; try (exfalso; apply Hfail; reflexivity).
  - exists [ECaptureStart capture_argv]. simpl. rewrite Ht. unfold s1. simpl.
    rewrite Hs, <- app_assoc.
    split; [reflexivity|]. split; [assumption|]. right. left. eauto.
  - assert (Hcut : forall e0,
              exists steps,
                trace (snd (@raise unit e0 s2)) = trace s ++ sessions ++ steps
                /\ Forall is_ssh_event sessions
                /\ (steps = []
                    \/ (exists capture_argv0, steps = [ECaptureStart capture_argv0])
                    \/ (exists capture_argv0 argv0 returncode0,
                          steps = [ECaptureStart capture_argv0; ECommandStart argv0;
                                   ECommandExit returncode0])
                    \/ (exists capture_argv0 argv0 returncode0 moved,
                          steps = [ECaptureStart capture_argv0; ECommandStart argv0;
                                   ECommandExit returncode0; ESleep (delay args);
                                   ECaptureTerminate capture_argv0] ++ map EMove moved))).
    { intros e0.
      exists [ECaptureStart capture_argv; ECommandStart argv; ECommandExit returncode].
      simpl. rewrite Ht. unfold s1. simpl. rewrite Hs, <- !app_assoc. simpl.
      split; [reflexivity|]. split; [assumption|]. right. right. left. eauto. }
    unfold sleep.
    destruct ((delay args <? - sleep_max)%Z || (sleep_max <? delay args)%Z);
      [apply Hcut|].
    destruct (delay args <? 0)%Z; [apply Hcut|].
    destruct (clock_sleep w (delay args)) as [e0|]; [apply Hcut|].
    clear Hcut.
    + unfold terminate. unfold bind, emit. simpl. unfold move_files. simpl.
      match goal with
      | |- context [move_files_loop ?items ?s3] =>
          destruct (move_files_loop_events items s3) as [moved Hm]
      end.
      exists ([ECaptureStart capture_argv; ECommandStart argv; ECommandExit returncode;
               ESleep (delay args); ECaptureTerminate capture_argv] ++ map EMove moved).
      rewrite Hm. simpl. rewrite Ht. unfold s1. simpl. rewrite Hs, <- !app_assoc. simpl.
      split; [reflexivity|]. split; [assumption|]. right. right. right.
      exists capture_argv, argv, returncode, moved. reflexivity.
  - exists [ECaptureStart capture_argv; ECommandStart argv; ECommandExit returncode].
    simpl. rewrite Ht. unfold s1. simpl. rewrite Hs, <- !app_assoc. simpl.
    split; [reflexivity|]. split; [assumption|]. right. right. left. eauto.
Qed.

(** X22. The task loop stops at the first task that raises: when the tasks
    before it were processed without exception and it raises, the loop ends
    with that exception in the state it left, and the tasks after it are
    not processed. *)
Theorem task_loop_stops_at_first_exception
    (str_lower : pystr -> pystr) (encode : pystr -> bytes) (ws : nat -> world)
    (done : list Task) (task : Task) (rest : list Task) (args : Args)
    (k : nat) (s s1 s2 : state) (e : exn) :
  task_loop str_lower encode ws k done args s = (Ok tt, s1) ->
  process_creator_task str_lower encode (ws (k + List.length done)) (Some task) task
    tmp_capture args s1 = (Raise e, s2) ->
  task_loop str_lower encode ws k (done ++ task :: rest) args s = (Raise e, s2).
Proof.
  revert k s. induction done as [|t done IH]; intros k s Hdone Htask.
  - simpl in Hdone. injection Hdone as <-. simpl in Htask. rewrite Nat.add_0_r in Htask.
    apply task_loop_raise. exact Htask.
  - simpl in Hdone |- *. unfold bind in Hdone |- *.
    destruct (process_creator_task str_lower encode (ws k) (Some t) t tmp_capture args s)
      as [[[]|e'] s'] eqn:Ht; [|discriminate].
    apply IH; [exact Hdone|].
    simpl in Htask. rewrite Nat.add_succ_r in Htask. exact Htask.
Qed.

Definition quiet_then_noisy (k : nat) : world :=
  match k with
  | O => sample_world [] [] [] []
  | S _ => sample_world [] [] (bytes_of "PING") []
  end.

Definition after_quiet_task : state :=
  Eval vm_compute in
    snd (task_loop ascii_lower no_encoding quiet_then_noisy 0 [ping_test] sample_args
           empty_state).

Definition after_noisy_task : state :=
  Eval vm_compute in
    snd (process_creator_task ascii_lower no_encoding (quiet_then_noisy 1) (Some ping_test)
           ping_test tmp_capture sample_args after_quiet_task).

Lemma task_loop_stops_at_first_exception_witness :
  task_loop ascii_lower no_encoding quiet_then_noisy 0
    ([ping_test] ++ ping_test :: [ping_test]) sample_args empty_state
  = (Raise TypeError, after_noisy_task).
Proof.
  apply (task_loop_stops_at_first_exception ascii_lower no_encoding quiet_then_noisy
           [ping_test] ping_test [ping_test] sample_args 0 empty_state after_quiet_task
           after_noisy_task TypeError);
    vm_compute; reflexivity.
Defined.
